(** * Pricing and backtesting engine of the options platform (frontend/src/App.js)

    A shallow embedding of [normalCDF], [calculateBlackScholes],
    [generateMockPriceData] and [runCoveredCallBacktest], and the properties
    of these functions that the specification states.

    Numbers.  A JavaScript number is modelled by [number]: an exact rational,
    or one of the three special values [+Infinity], [-Infinity] and [NaN],
    with the IEEE-754 rules for the special values (0/0 is NaN, x/0 is an
    infinity, Infinity - Infinity is NaN, every comparison with NaN is false).
    Rounding to 53 bits, overflow to an infinity, underflow to zero and the
    sign of zero are not modelled: finite arithmetic is exact, and the
    properties that depend on it are stated for exact arithmetic.  Every
    finite result is stored in lowest terms ([Qred]), so that equal numbers
    are equal terms. *)

From Stdlib Require Import QArith Qreduction Qminmax Qabs ZArith List Lia Lqa Bool String.
From Stdlib Require Reals Lra.
Import ListNotations.

(** ** JavaScript numbers *)

Module JS.

Inductive number : Type :=
| Fin (q : Q)
| PInf
| NInf
| NaN.

Definition fin (q : Q) : number := Fin (Qred q).

Definition of_Z (z : Z) : number := Fin (inject_Z z).
Definition of_nat (n : nat) : number := of_Z (Z.of_nat n).

Definition Qltb (a b : Q) : bool := negb (Qle_bool b a).

Definition is_finite (x : number) : bool :=
  match x with Fin _ => true | _ => false end.

Definition is_nan (x : number) : bool :=
  match x with NaN => true | _ => false end.

(** Unary minus. *)
Definition neg (x : number) : number :=
  match x with
  | Fin a => fin (- a)
  | PInf => NInf
  | NInf => PInf
  | NaN => NaN
  end.

Definition add (x y : number) : number :=
  match x, y with
  | NaN, _ | _, NaN => NaN
  | Fin a, Fin b => fin (a + b)
  | PInf, NInf | NInf, PInf => NaN
  | PInf, _ | _, PInf => PInf
  | NInf, _ | _, NInf => NInf
  end.

Definition sub (x y : number) : number :=
  match x, y with
  | NaN, _ | _, NaN => NaN
  | Fin a, Fin b => fin (a - b)
  | PInf, PInf | NInf, NInf => NaN
  | PInf, _ | _, NInf => PInf
  | NInf, _ | _, PInf => NInf
  end.

(** The infinity whose sign is that of [s * q]; [NaN] when [q] is zero. *)
Definition inf_times (positive : bool) (q : Q) : number :=
  if Qeq_bool q 0 then NaN
  else if Bool.eqb positive (Qltb 0 q) then PInf else NInf.

Definition mul (x y : number) : number :=
  match x, y with
  | NaN, _ | _, NaN => NaN
  | Fin a, Fin b => fin (a * b)
  | PInf, Fin b | Fin b, PInf => inf_times true b
  | NInf, Fin b | Fin b, NInf => inf_times false b
  | PInf, PInf | NInf, NInf => PInf
  | PInf, NInf | NInf, PInf => NInf
  end.

Definition div (x y : number) : number :=
  match x, y with
  | NaN, _ | _, NaN => NaN
  | Fin a, Fin b =>
      if Qeq_bool b 0 then inf_times true a else fin (a / b)
  | Fin _, (PInf | NInf) => Fin 0
  | PInf, Fin b => if Qltb b 0 then NInf else PInf
  | NInf, Fin b => if Qltb b 0 then PInf else NInf
  | (PInf | NInf), (PInf | NInf) => NaN
  end.

(** [x < y], [x <= y], [x > y]: false as soon as one side is NaN. *)
Definition lt (x y : number) : bool :=
  match x, y with
  | NaN, _ | _, NaN => false
  | Fin a, Fin b => Qltb a b
  | NInf, NInf | PInf, _ => false
  | NInf, _ | Fin _, PInf => true
  | Fin _, NInf => false
  end.

Definition le (x y : number) : bool :=
  match x, y with
  | NaN, _ | _, NaN => false
  | Fin a, Fin b => Qle_bool a b
  | NInf, _ | _, PInf => true
  | PInf, _ | Fin _, NInf => false
  end.

Definition gt (x y : number) : bool := lt y x.

(** ToBoolean on a number: [0] and [NaN] are falsy. *)
Definition truthy (x : number) : bool :=
  match x with
  | Fin q => negb (Qeq_bool q 0)
  | PInf | NInf => true
  | NaN => false
  end.

(** A value read from an array: [None] is [undefined]. *)
Definition value : Type := option number.

(** ToNumber: [undefined] becomes NaN. *)
Definition ToNumber (v : value) : number :=
  match v with Some x => x | None => NaN end.

Definition value_truthy (v : value) : bool :=
  match v with Some x => truthy x | None => false end.

(** [a || b] *)
Definition or (a b : value) : value :=
  if value_truthy a then a else b.

(** [arr[i]] for an integer index [i]; a negative or too large index reads
    [undefined]. *)
Definition elem (arr : list number) (i : Z) : value :=
  if (i <? 0)%Z then None else nth_error arr (Z.to_nat i).

(** [Math.max(x, y)] and [Math.min(x, y)]: NaN as soon as one argument is. *)
Definition max2 (x y : number) : number :=
  match x, y with
  | NaN, _ | _, NaN => NaN
  | _, _ => if lt x y then y else x
  end.

Definition min2 (x y : number) : number :=
  match x, y with
  | NaN, _ | _, NaN => NaN
  | _, _ => if lt y x then y else x
  end.

(** [Math.min(...xs)]: the fold of [min2] from [+Infinity], which is what
    the call returns on no argument. *)
Definition Math_min (xs : list number) : number := fold_left min2 xs PInf.

Definition Math_abs (x : number) : number :=
  match x with
  | Fin a => fin (Qabs a)
  | PInf | NInf => PInf
  | NaN => NaN
  end.

End JS.

Declare Scope js_scope.
Delimit Scope js_scope with js.
Bind Scope js_scope with JS.number.
Infix "+" := JS.add : js_scope.
Infix "-" := JS.sub : js_scope.
Infix "*" := JS.mul : js_scope.
Infix "/" := JS.div : js_scope.
Notation "- x" := (JS.neg x) : js_scope.
Infix "<?" := JS.lt : js_scope.
Infix "<=?" := JS.le : js_scope.
Infix ">?" := JS.gt (at level 70) : js_scope.
Notation "a '||' b" := (JS.or a b) : js_scope.

Import JS.

(** The decimal literal [m / 10^e]. *)
Definition dec (m : Z) (e : nat) : number :=
  fin (m # Pos.of_nat (Nat.pow 10 e)).

Coercion of_Z : Z >-> number.

(** ** Pricing engine *)

Record PricingResult : Type := {
  callPrice : number;
  putPrice : number;
  greeks : list (string * number)
}.

Section Pricing.

(** [Math.sqrt], [Math.exp], [Math.log] and [Math.PI] of the host: the
    language leaves their values to the implementation. *)
Variables Math_sqrt Math_exp Math_log : number -> number.
Variable Math_PI : number.

Local Open Scope js_scope.

Definition normalCDF (x : number) : number :=
  let a1 := dec 254829592 9 in
  let a2 := dec (-284496736) 9 in
  let a3 := dec 1421413741 9 in
  let a4 := dec (-1453152027) 9 in
  let a5 := dec 1061405429 9 in
  let p := dec 3275911 7 in
  let sign : number := if x <? 0%Z then (-1)%Z else 1%Z in
  let x := Math_abs x / Math_sqrt 2%Z in
  let t := 1%Z / (1%Z + p * x) in
  let y :=
    1%Z -
    ((((a5 * t + a4) * t + a3) * t + a2) * t + a1) * t * Math_exp (- x * x) in
  dec 5 1 * (1%Z + sign * y).

Definition calculateBlackScholes (S K T r sigma : number) : PricingResult :=
  let timeToExpiry := T / 365%Z in
  if timeToExpiry <=? 0%Z then
    let callPrice := max2 (S - K) 0%Z in
    let putPrice := max2 (K - S) 0%Z in
    {| callPrice := callPrice;
       putPrice := putPrice;
       greeks :=
         [ ("delta"%string, if S >? K then 1%Z : number else 0%Z : number);
           ("gamma"%string, 0%Z : number);
           ("theta"%string, 0%Z : number);
           ("vega"%string, 0%Z : number);
           ("rho"%string, 0%Z : number) ] |}
  else
    let d1 :=
      (Math_log (S / K) + (r + dec 5 1 * sigma * sigma) * timeToExpiry) /
      (sigma * Math_sqrt timeToExpiry) in
    let d2 := d1 - sigma * Math_sqrt timeToExpiry in
    let Nd1 := normalCDF d1 in
    let Nd2 := normalCDF d2 in
    let nPrime_d1 :=
      Math_exp (- dec 5 1 * d1 * d1) / Math_sqrt (2%Z * Math_PI) in
    let callPrice := S * Nd1 - K * Math_exp (- r * timeToExpiry) * Nd2 in
    let putPrice :=
      K * Math_exp (- r * timeToExpiry) * (1%Z - Nd2) - S * (1%Z - Nd1) in
    let delta_call := Nd1 in
    let delta_put := Nd1 - 1%Z in
    let gamma := nPrime_d1 / (S * sigma * Math_sqrt timeToExpiry) in
    let theta_call :=
      ((- S * nPrime_d1 * sigma) / (2%Z * Math_sqrt timeToExpiry) -
       r * K * Math_exp (- r * timeToExpiry) * Nd2) / 365%Z in
    let theta_put :=
      ((- S * nPrime_d1 * sigma) / (2%Z * Math_sqrt timeToExpiry) +
       r * K * Math_exp (- r * timeToExpiry) * (1%Z - Nd2)) / 365%Z in
    let vega := (S * nPrime_d1 * Math_sqrt timeToExpiry) / 100%Z in
    let rho_call :=
      (K * timeToExpiry * Math_exp (- r * timeToExpiry) * Nd2) / 100%Z in
    let rho_put :=
      (- K * timeToExpiry * Math_exp (- r * timeToExpiry) * (1%Z - Nd2)) /
      100%Z in
    {| callPrice := max2 callPrice 0%Z;
       putPrice := max2 putPrice 0%Z;
       greeks :=
         [ ("delta_call"%string, delta_call);
           ("delta_put"%string, delta_put);
           ("gamma"%string, gamma);
           ("theta_call"%string, theta_call);
           ("theta_put"%string, theta_put);
           ("vega"%string, vega);
           ("rho_call"%string, rho_call);
           ("rho_put"%string, rho_put) ] |}.

End Pricing.

(** ** Backtest simulator *)

(** The state of the global [Math.random]: the draws it will return, in
    order.  A call returns the first one and leaves the rest. *)
Definition rng : Type := nat -> number.

Definition Math_random (s : rng) : number * rng :=
  (s 0%nat, fun n => s (S n)).

Record PriceData : Type := {
  prices : list number;
  returns : list number
}.

Record GenState : Type := {
  g_i : Z;
  g_prices : list number;
  g_returns : list number;
  g_rng : rng
}.

Section Generator.

Local Open Scope js_scope.

Variable days : Z.
Variable volatility : number.

(** One iteration of the loop of [generateMockPriceData], [i++] included. *)
Definition generate_body (st : GenState) : GenState :=
  let i := g_i st in
  let (random, rest) := Math_random (g_rng st) in
  let randomReturn := (random - dec 5 1) * volatility * 2%Z in
  let newPrice := ToNumber (elem (g_prices st) (i - 1)) * (1%Z + randomReturn) in
  {| g_i := (i + 1)%Z;
     g_prices := g_prices st ++ [max2 newPrice 1%Z];
     g_returns := g_returns st ++ [randomReturn];
     g_rng := rest |}.

(** [for (let i = 1; i < days; i++) body], at most [fuel] iterations. *)
Fixpoint generate_loop (fuel : nat) (st : GenState) : GenState :=
  match fuel with
  | O => st
  | S fuel' =>
      if (g_i st <? days)%Z then generate_loop fuel' (generate_body st)
      else st
  end.

End Generator.

(** [generateMockPriceData(symbol, days, startPrice, volatility)], run from
    the state [s] of [Math.random]; returns the data and the state left. *)
Definition generateMockPriceData (symbol : string) (days : Z)
    (startPrice volatility : number) (s : rng) : PriceData * rng :=
  let st :=
    generate_loop days volatility (Z.to_nat days)
      {| g_i := 1; g_prices := [startPrice]; g_returns := []; g_rng := s |} in
  ({| prices := g_prices st; returns := g_returns st |}, g_rng st).

Record TradeRecord : Type := {
  (** the day [i + 1] given to [new Date(2023, 0, i + 1)]; the ISO text of
      the date is not modelled *)
  date : Z;
  stockPrice : value;
  pnl : number;
  cumulativePnL : number
}.

Record BacktestReport : Type := {
  trades : list TradeRecord;
  totalPnL : number;
  winningTrades : nat;
  totalTrades : nat;
  winRate : number;
  avgPnL : number;
  maxDrawdown : number;
  finalReturn : number
}.

Record LoopState : Type := {
  l_i : Z;
  l_totalPnL : number;
  l_winningTrades : nat;
  l_totalTrades : nat;
  l_results : list TradeRecord
}.

Section Backtest.

Local Open Scope js_scope.

(** [strategyInputs.initialCapital], read from the enclosing component. *)
Variable initialCapital : number.

Variable prices_ : list number.
Variables strike premium quantity : number.

Definition prices_length : Z := Z.of_nat (List.length prices_).

Definition entryPrice_at (i : Z) : value := elem prices_ i.

Definition exitPrice_at (i : Z) : value :=
  elem prices_ (i + 29) || elem prices_ (prices_length - 1).

Definition stockPnL_of (entryPrice exitPrice : value) : number :=
  (ToNumber exitPrice - ToNumber entryPrice) * quantity * 100%Z.

Definition optionPnL_of (exitPrice : value) : number :=
  if ToNumber exitPrice >? strike
  then - (ToNumber exitPrice - strike) * quantity * 100%Z
       + premium * quantity * 100%Z
  else premium * quantity * 100%Z.

(** One iteration of the loop of [runCoveredCallBacktest], [i += 30]
    included. *)
Definition backtest_body (st : LoopState) : LoopState :=
  let i := l_i st in
  let entryPrice := entryPrice_at i in
  let exitPrice := exitPrice_at i in
  let stockPnL := stockPnL_of entryPrice exitPrice in
  let optionPnL := optionPnL_of exitPrice in
  let totalTradePnL := stockPnL + optionPnL in
  let totalPnL := l_totalPnL st + totalTradePnL in
  let winningTrades :=
    if totalTradePnL >? 0%Z then S (l_winningTrades st)
    else l_winningTrades st in
  let totalTrades := S (l_totalTrades st) in
  {| l_i := (i + 30)%Z;
     l_totalPnL := totalPnL;
     l_winningTrades := winningTrades;
     l_totalTrades := totalTrades;
     l_results :=
       l_results st ++
       [ {| date := (i + 1)%Z;
            stockPrice := exitPrice;
            pnl := totalTradePnL;
            cumulativePnL := totalPnL |} ] |}.

Definition backtest_cond (st : LoopState) : bool :=
  (l_i st <? prices_length - 30)%Z.

(** [for (let i = 0; i < prices.length - 30; i += 30) body], at most [fuel]
    iterations. *)
Fixpoint backtest_loop (fuel : nat) (st : LoopState) : LoopState :=
  match fuel with
  | O => st
  | S fuel' =>
      if backtest_cond st then backtest_loop fuel' (backtest_body st)
      else st
  end.

Definition backtest_init : LoopState :=
  {| l_i := 0; l_totalPnL := 0%Z; l_winningTrades := 0; l_totalTrades := 0;
     l_results := [] |}.

Definition runCoveredCallBacktest : BacktestReport :=
  let st := backtest_loop (List.length prices_) backtest_init in
  let results := l_results st in
  let totalPnL := l_totalPnL st in
  let winningTrades := l_winningTrades st in
  let totalTrades := l_totalTrades st in
  {| trades := results;
     totalPnL := totalPnL;
     winningTrades := winningTrades;
     totalTrades := totalTrades;
     winRate := (of_nat winningTrades / of_nat totalTrades) * 100%Z;
     avgPnL := totalPnL / of_nat totalTrades;
     maxDrawdown := Math_min (map cumulativePnL results);
     finalReturn := (totalPnL / initialCapital) * 100%Z |}.

End Backtest.

Arguments runCoveredCallBacktest initialCapital prices_ strike premium quantity : rename.

(** ** Definitions used to state the properties *)

(** A finite, strictly positive number: what the data model calls a
    positive real. *)
Definition positive (x : number) : bool :=
  match x with Fin q => Qltb 0 q | _ => false end.

(** A draw of [Math.random]: a finite number in [0, 1). *)
Definition unit_draw (x : number) : bool :=
  match x with Fin q => Qle_bool 0 q && Qltb q 1 | _ => false end.

(** The number of iterations of the loop of [runCoveredCallBacktest] on a
    path of [n] prices (the subtraction stops at zero). *)
Definition periods (n : nat) : nat := ((n - 1) / 30)%nat.

Section LoopStates.

Variable prices_ : list number.
Variables strike premium quantity : number.

(** The loop state of [runCoveredCallBacktest] after [k] iterations. *)
Definition state_after (k : nat) : LoopState :=
  Nat.iter k (backtest_body prices_ strike premium quantity) backtest_init.

Local Open Scope js_scope.

(** The value of [totalTradePnL] in the iteration at index [i]. *)
Definition tradePnL_at (i : Z) : number :=
  stockPnL_of quantity (entryPrice_at prices_ i) (exitPrice_at prices_ i)
  + optionPnL_of strike premium quantity (exitPrice_at prices_ i).

(** The profit of the period that starts at index [i], as the specification
    writes it: the stock leg plus the short call, which keeps the premium and
    loses what the exit price exceeds the strike by. *)
Definition spec_stockPnL (i : Z) : number :=
  (ToNumber (elem prices_ (i + 29)) - ToNumber (elem prices_ i))
  * quantity * 100%Z.

Definition spec_optionPnL (i : Z) : number :=
  premium * quantity * 100%Z
  - max2 (ToNumber (elem prices_ (i + 29)) - strike) 0%Z * quantity * 100%Z.

Definition spec_periodPnL (i : Z) : number :=
  spec_stockPnL i + spec_optionPnL i.

End LoopStates.

(** The running sums of a list, from [acc]: each one is the one before plus
    the next element. *)
Fixpoint running_sums (acc : number) (xs : list number) : list number :=
  match xs with
  | [] => []
  | x :: xs' => add acc x :: running_sums (add acc x) xs'
  end.

(** The sum of a list, added from the left, from zero. *)
Definition sum_of (xs : list number) : number := fold_left add xs (of_Z 0).

(** The state of the loop of [generateMockPriceData] after [k] iterations. *)
Definition generate_after (volatility startPrice : number) (s : rng)
    (k : nat) : GenState :=
  Nat.iter k (generate_body volatility)
    {| g_i := 1; g_prices := [startPrice]; g_returns := []; g_rng := s |}.

(** The value of [randomReturn] in the iteration that takes the draw of
    rank [k] of [s]. *)
Definition step_of (volatility : number) (s : rng) (k : nat) : number :=
  mul (mul (sub (s k) (dec 5 1)) volatility) (of_Z 2).

(** [y] is [x] moved by a relative step within [-v, +v], floored at 1. *)
Definition random_step (v x y : number) : Prop :=
  exists u : number,
    le (neg v) u = true /\ le u v = true /\
    y = max2 (mul x (add (of_Z 1) u)) (of_Z 1).

(** Two runs of the generator, one after the other, on the same arguments:
    the second starts from the state of [Math.random] the first one left. *)
Definition two_runs (symbol : string) (days : Z)
    (startPrice volatility : number) (s : rng) : list number * list number :=
  let (d1, s1) := generateMockPriceData symbol days startPrice volatility s in
  let (d2, _) := generateMockPriceData symbol days startPrice volatility s1 in
  (prices d1, prices d2).

(** A sequence of draws: 3/4, 1/4, 0, then 1/2 for ever. *)
Definition sample_draws : rng :=
  fun n =>
    match n with
    | 0%nat => dec 75 2
    | 1%nat => dec 25 2
    | 2%nat => of_Z 0
    | _ => dec 5 1
    end.

(** A flat path: [n] days at the price 100. *)
Definition flat_path (n : nat) : list number := repeat (of_Z 100) n.

(** ** The run of a backtest and the portfolio *)

(** [x === y] on numbers: NaN is equal to nothing. *)
Definition strict_eq (x y : number) : bool :=
  match x, y with
  | Fin a, Fin b => Qeq_bool a b
  | PInf, PInf | NInf, NInf => true
  | _, _ => false
  end.

(** ToBoolean on a string: only the empty string is falsy. *)
Definition string_truthy (s : string) : bool :=
  match s with EmptyString => false | _ => true end.

(** [o.key] on an object given by its entries: [undefined] on a key that the
    object does not have. *)
Fixpoint prop (key : string) (o : list (string * number)) : value :=
  match o with
  | [] => None
  | (k, v) :: o' => if String.eqb k key then Some v else prop key o'
  end.

Module StrategyInputs.
Record t : Type := {
  strategy : string;
  startDate : string;
  endDate : string;
  initialCapital : number;
  stockSymbol : string;
  volatility : number;
  riskFreeRate : number
}.
End StrategyInputs.

(** What [runBacktest] stores: a report, or the object
    [{ message: ... }]. *)
Inductive BacktestResults : Type :=
| Report (r : BacktestReport)
| Message (message : string).

(** [runBacktest], without its delay and its busy flag: the results it
    stores, and the state of [Math.random] it leaves. *)
Definition runBacktest (Math_sqrt : number -> number)
    (strategyInputs : StrategyInputs.t) (s : rng) : BacktestResults * rng :=
  let (data, s') :=
    generateMockPriceData (StrategyInputs.stockSymbol strategyInputs) 365
      (of_Z 12450)
      (div (StrategyInputs.volatility strategyInputs) (Math_sqrt (of_Z 252)))
      s in
  let results :=
    if String.eqb (StrategyInputs.strategy strategyInputs) "covered_call"
    then Report
           (runCoveredCallBacktest
              (StrategyInputs.initialCapital strategyInputs)
              (prices data) (of_Z 12865) (dec 2905 1) (of_Z 10))
    else Message "Strategy not implemented yet" in
  (results, s').

Module Position.
Record t : Type := {
  id : number;
  symbol : string;
  type : string;
  strike : number;
  expiry : string;
  quantity : number;
  premium : number;
  current : number
}.
End Position.

(** The form of a new position: every field is the text of an input. *)
Module NewPosition.
Record t : Type := {
  symbol : string;
  type : string;
  strike : string;
  expiry : string;
  quantity : string;
  premium : string
}.
End NewPosition.

Module PortfolioGreeks.
Record t : Type := {
  delta : number;
  gamma : number;
  theta : number;
  vega : number
}.
End PortfolioGreeks.

Module PortfolioMetrics.
Record t : Type := {
  totalValue : number;
  totalPnL : number;
  totalReturn : number;
  portfolioGreeks : PortfolioGreeks.t;
  positionCount : nat
}.
End PortfolioMetrics.

(** The six totals that the [forEach] of [calculatePortfolioMetrics]
    updates. *)
Module Totals.
Record t : Type := {
  totalValue : number;
  totalPnL : number;
  totalDelta : number;
  totalGamma : number;
  totalTheta : number;
  totalVega : number
}.
End Totals.

Section Portfolio.

Variables Math_sqrt Math_exp Math_log : number -> number.
Variable Math_PI : number.

Local Open Scope js_scope.

(** The body of the [forEach]. *)
Definition metrics_step (acc : Totals.t) (position : Position.t) : Totals.t :=
  let positionValue :=
    Position.current position * Position.quantity position * 100%Z in
  let positionPnL :=
    (Position.current position - Position.premium position)
    * Position.quantity position * 100%Z in
  let mockGreeks :=
    calculateBlackScholes Math_sqrt Math_exp Math_log Math_PI
      12450%Z (Position.strike position) 30%Z (dec 5 2) (dec 25 2) in
  let greek key := ToNumber (prop key (greeks mockGreeks)) in
  let is_call := String.eqb (Position.type position) "Call" in
  {| Totals.totalValue := Totals.totalValue acc + positionValue;
     Totals.totalPnL := Totals.totalPnL acc + positionPnL;
     Totals.totalDelta :=
       if is_call
       then Totals.totalDelta acc + greek "delta_call"%string * Position.quantity position
       else Totals.totalDelta acc + greek "delta_put"%string * Position.quantity position;
     Totals.totalGamma :=
       Totals.totalGamma acc + greek "gamma"%string * Position.quantity position;
     Totals.totalTheta :=
       if is_call
       then Totals.totalTheta acc + greek "theta_call"%string * Position.quantity position
       else Totals.totalTheta acc + greek "theta_put"%string * Position.quantity position;
     Totals.totalVega :=
       Totals.totalVega acc + greek "vega"%string * Position.quantity position |}.

Definition totals_init : Totals.t :=
  {| Totals.totalValue := 0%Z; Totals.totalPnL := 0%Z; Totals.totalDelta := 0%Z;
     Totals.totalGamma := 0%Z; Totals.totalTheta := 0%Z; Totals.totalVega := 0%Z |}.

(** [portfolioPositions.reduce((sum, p) => sum + p.premium * p.quantity * 100, 0)] *)
Definition premium_paid (portfolioPositions : list Position.t) : number :=
  fold_left
    (fun sum p => sum + Position.premium p * Position.quantity p * 100%Z)
    portfolioPositions (0%Z : number).

Definition calculatePortfolioMetrics (portfolioPositions : list Position.t)
    : PortfolioMetrics.t :=
  let acc := fold_left metrics_step portfolioPositions totals_init in
  {| PortfolioMetrics.totalValue := Totals.totalValue acc;
     PortfolioMetrics.totalPnL := Totals.totalPnL acc;
     PortfolioMetrics.totalReturn :=
       (Totals.totalPnL acc / premium_paid portfolioPositions) * 100%Z;
     PortfolioMetrics.portfolioGreeks :=
       {| PortfolioGreeks.delta := Totals.totalDelta acc;
          PortfolioGreeks.gamma := Totals.totalGamma acc;
          PortfolioGreeks.theta := Totals.totalTheta acc;
          PortfolioGreeks.vega := Totals.totalVega acc |};
     PortfolioMetrics.positionCount := List.length portfolioPositions |}.

(** The effect that follows a change of the positions: the metrics are
    computed again when a position is left, and kept as they are
    otherwise. *)
Definition metrics_effect (portfolioPositions : list Position.t)
    (portfolioMetrics : option PortfolioMetrics.t) : option PortfolioMetrics.t :=
  if (0 <? List.length portfolioPositions)%nat
  then Some (calculatePortfolioMetrics portfolioPositions)
  else portfolioMetrics.

End Portfolio.

Definition empty_form : NewPosition.t :=
  {| NewPosition.symbol := ""; NewPosition.type := "Call";
     NewPosition.strike := ""; NewPosition.expiry := "";
     NewPosition.quantity := ""; NewPosition.premium := "" |}.

Section AddPosition.

(** [parseFloat] and [parseInt] of the host, and the value that [Date.now()]
    returns during the call. *)
Variables parseFloat parseInt : string -> number.
Variable Date_now : number.

Local Open Scope js_scope.

(** [addPosition]: the positions and the form after the call, and the state
    of [Math.random] it leaves. *)
Definition addPosition (portfolioPositions : list Position.t)
    (newPosition : NewPosition.t) (s : rng)
    : list Position.t * NewPosition.t * rng :=
  if string_truthy (NewPosition.symbol newPosition)
     && string_truthy (NewPosition.strike newPosition)
     && string_truthy (NewPosition.quantity newPosition)
     && string_truthy (NewPosition.premium newPosition)
  then
    let (random, s') := Math_random s in
    let position :=
      {| Position.id := Date_now;
         Position.symbol := NewPosition.symbol newPosition;
         Position.type := NewPosition.type newPosition;
         Position.strike := parseFloat (NewPosition.strike newPosition);
         Position.expiry := NewPosition.expiry newPosition;
         Position.quantity := parseInt (NewPosition.quantity newPosition);
         Position.premium := parseFloat (NewPosition.premium newPosition);
         Position.current :=
           parseFloat (NewPosition.premium newPosition)
           * (dec 9 1 + random * dec 4 1) |} in
    (portfolioPositions ++ [position], empty_form, s')
  else (portfolioPositions, newPosition, s).

End AddPosition.

(** [removePosition(id)]: the positions after the call. *)
Definition removePosition (portfolioPositions : list Position.t)
    (id : number) : list Position.t :=
  filter (fun p => negb (strict_eq (Position.id p) id)) portfolioPositions.

(** The profit of a covered call held over the period that starts at index
    [i]: the exit price counts up to the strike only. *)
Definition capped_periodPnL (ps : list number)
    (strike premium quantity : number) (i : Z) : number :=
  mul
    (mul
       (add
          (sub (min2 (ToNumber (elem ps (i + 29))) strike)
               (ToNumber (elem ps i)))
          premium)
       quantity)
    (of_Z 100).

(** The position [p] with the type [ty]. *)
Definition with_type (ty : string) (p : Position.t) : Position.t :=
  {| Position.id := Position.id p;
     Position.symbol := Position.symbol p;
     Position.type := ty;
     Position.strike := Position.strike p;
     Position.expiry := Position.expiry p;
     Position.quantity := Position.quantity p;
     Position.premium := Position.premium p;
     Position.current := Position.current p |}.

(** Host functions used to run the definitions on examples: a square root
    and a logarithm that return 1 and 0, an exponential that returns 1. *)
Definition sample_sqrt (x : number) : number := of_Z 1.
Definition sample_exp (x : number) : number := of_Z 1.
Definition sample_log (x : number) : number := of_Z 0.

(** The numbers of a position that enter its value are finite. *)
Definition finite_position (p : Position.t) : bool :=
  is_finite (Position.current p) && is_finite (Position.premium p)
  && is_finite (Position.quantity p).

(** The positions that the component starts with. *)
Definition initial_positions : list Position.t :=
  [ {| Position.id := of_Z 1; Position.symbol := "RELIANCE";
       Position.type := "Call"; Position.strike := of_Z 12450;
       Position.expiry := "2024-03-15"; Position.quantity := of_Z 10;
       Position.premium := dec 4565 1; Position.current := dec 5146 1 |};
    {| Position.id := of_Z 2; Position.symbol := "INFY";
       Position.type := "Put"; Position.strike := of_Z 24900;
       Position.expiry := "2024-02-16"; Position.quantity := of_Z 5;
       Position.premium := dec 72625 2; Position.current := dec 6059 1 |};
    {| Position.id := of_Z 3; Position.symbol := "TCS";
       Position.type := "Call"; Position.strike := of_Z 11620;
       Position.expiry := "2024-04-19"; Position.quantity := of_Z 8;
       Position.premium := dec 101675 2; Position.current := dec 13114 1 |} ].

(** A filled form, with an empty expiry. *)
Definition sample_form : NewPosition.t :=
  {| NewPosition.symbol := "HDFC"; NewPosition.type := "Call";
     NewPosition.strike := "1500"; NewPosition.expiry := "";
     NewPosition.quantity := "4"; NewPosition.premium := "200" |}.

(** ** A host with the overflow and the underflow of doubles

    [Math.exp], [Math.sqrt] and [Math.log] as every implementation on
    IEEE-754 doubles has them at the arguments used below: the exponential is
    [+Infinity] above 709.79 and 0 below -745.14, the square root of 9 is 3
    and that of 2 is 1.4142135623730951, the logarithm of 1 is 0.  At the
    other finite arguments, which the example does not reach for the prices,
    the functions return 1, 1 and 0. *)
Definition double_exp (x : number) : number :=
  match x with
  | Fin q =>
      if Qle_bool 710 q then PInf
      else if Qle_bool q (-746) then Fin 0
      else Fin 1
  | PInf => PInf
  | NInf => Fin 0
  | NaN => NaN
  end.

Definition double_sqrt (x : number) : number :=
  match x with
  | Fin q =>
      if Qeq_bool q 9 then Fin 3
      else if Qeq_bool q 2
           then Fin (14142135623730951 # 10000000000000000)
           else Fin 1
  | PInf => PInf
  | NInf | NaN => NaN
  end.

Definition double_log (x : number) : number :=
  match x with
  | Fin q => Fin 0
  | PInf => PInf
  | NInf | NaN => NaN
  end.

Definition double_PI : number :=
  Fin (3141592653589793 # 1000000000000000).

(** ** The pricing in real arithmetic

    [normalCDF] and [calculateBlackScholes] once more, on real numbers: the
    operations are exact, [Math.exp], [Math.log] and [Math.sqrt] are the
    exponential, the logarithm and the square root, and no value is NaN or
    infinite. *)

Module RealPricing.
Import Reals.
Local Open Scope R_scope.

Record PricingResult : Type := {
  callPrice : R;
  putPrice : R;
  greeks : list (string * R)
}.

Definition normalCDF (x : R) : R :=
  let a1 := 0.254829592 in
  let a2 := -0.284496736 in
  let a3 := 1.421413741 in
  let a4 := -1.453152027 in
  let a5 := 1.061405429 in
  let p := 0.3275911 in
  let sign := if Rlt_dec x 0 then -1 else 1 in
  let x := Rabs x / sqrt 2 in
  let t := 1 / (1 + p * x) in
  let y :=
    1 - ((((a5 * t + a4) * t + a3) * t + a2) * t + a1) * t * exp (- x * x) in
  0.5 * (1 + sign * y).

Definition calculateBlackScholes (S K T r sigma : R) : PricingResult :=
  let timeToExpiry := T / 365 in
  if Rle_dec timeToExpiry 0 then
    let callPrice := Rmax (S - K) 0 in
    let putPrice := Rmax (K - S) 0 in
    {| callPrice := callPrice;
       putPrice := putPrice;
       greeks :=
         [ ("delta"%string, if Rlt_dec K S then 1 else 0);
           ("gamma"%string, 0);
           ("theta"%string, 0);
           ("vega"%string, 0);
           ("rho"%string, 0) ] |}
  else
    let d1 :=
      (ln (S / K) + (r + 0.5 * sigma * sigma) * timeToExpiry) /
      (sigma * sqrt timeToExpiry) in
    let d2 := d1 - sigma * sqrt timeToExpiry in
    let Nd1 := normalCDF d1 in
    let Nd2 := normalCDF d2 in
    let nPrime_d1 := exp (- 0.5 * d1 * d1) / sqrt (2 * PI) in
    let callPrice := S * Nd1 - K * exp (- r * timeToExpiry) * Nd2 in
    let putPrice :=
      K * exp (- r * timeToExpiry) * (1 - Nd2) - S * (1 - Nd1) in
    let delta_call := Nd1 in
    let delta_put := Nd1 - 1 in
    let gamma := nPrime_d1 / (S * sigma * sqrt timeToExpiry) in
    let theta_call :=
      ((- S * nPrime_d1 * sigma) / (2 * sqrt timeToExpiry) -
       r * K * exp (- r * timeToExpiry) * Nd2) / 365 in
    let theta_put :=
      ((- S * nPrime_d1 * sigma) / (2 * sqrt timeToExpiry) +
       r * K * exp (- r * timeToExpiry) * (1 - Nd2)) / 365 in
    let vega := (S * nPrime_d1 * sqrt timeToExpiry) / 100 in
    let rho_call :=
      (K * timeToExpiry * exp (- r * timeToExpiry) * Nd2) / 100 in
    let rho_put :=
      (- K * timeToExpiry * exp (- r * timeToExpiry) * (1 - Nd2)) / 100 in
    {| callPrice := Rmax callPrice 0;
       putPrice := Rmax putPrice 0;
       greeks :=
         [ ("delta_call"%string, delta_call);
           ("delta_put"%string, delta_put);
           ("gamma"%string, gamma);
           ("theta_call"%string, theta_call);
           ("theta_put"%string, theta_put);
           ("vega"%string, vega);
           ("rho_call"%string, rho_call);
           ("rho_put"%string, rho_put) ] |}.

(** The polynomial of [normalCDF], its expansion in powers and the slope of
    the expansion. *)
Definition poly (t : R) : R :=
  ((((1.061405429 * t + -1.453152027) * t + 1.421413741) * t
    + -0.284496736) * t + 0.254829592) * t.

Definition poly_sum : R -> R :=
  (mult_real_fct 1.061405429 (fun y => y ^ 5)
   + (mult_real_fct (-1.453152027) (fun y => y ^ 4)
   + (mult_real_fct 1.421413741 (fun y => y ^ 3)
   + (mult_real_fct (-0.284496736) (fun y => y ^ 2)
   + mult_real_fct 0.254829592 (fun y => y ^ 1)))))%F.

Definition poly_slope (t : R) : R :=
  1.061405429 * (INR 5 * t ^ pred 5)
  + (-1.453152027 * (INR 4 * t ^ pred 4)
  + (1.421413741 * (INR 3 * t ^ pred 3)
  + (-0.284496736 * (INR 2 * t ^ pred 2)
  + 0.254829592 * (INR 1 * t ^ pred 1)))).

(** The weight [H d] that [normalCDF] gives to the tail [exp (- d^2 / 2)]:
    the polynomial at [t = 1 / (1 + p |d| / sqrt 2)]. *)
Definition tail_weight (d : R) : R :=
  poly (1 / (1 + 0.3275911 * (Rabs d / sqrt 2))).

End RealPricing.

(** * Properties *)

(** ** Facts on numbers *)

Lemma Qltb_lt (a b : Q) : Qltb a b = true <-> (a < b)%Q.
Proof.
  unfold Qltb. rewrite negb_true_iff, <- not_true_iff_false, Qle_bool_iff.
  split; [apply Qnot_le_lt | apply Qlt_not_le].
Qed.

Lemma Qltb_ge (a b : Q) : Qltb a b = false <-> (b <= a)%Q.
Proof.
  unfold Qltb. rewrite negb_false_iff. apply Qle_bool_iff.
Qed.

Lemma fin_eq (a b : Q) : (a == b)%Q -> fin a = fin b.
Proof. intros H. unfold fin. f_equal. now apply Qred_complete. Qed.

Lemma positive_Fin (x : number) :
  positive x = true -> exists q, x = Fin q /\ (0 < q)%Q.
Proof.
  destruct x as [q| | |]; try discriminate. simpl. intros H.
  exists q. split; [reflexivity | now apply Qltb_lt].
Qed.

Lemma positive_truthy (x : number) : positive x = true -> truthy x = true.
Proof.
  intros H. destruct (positive_Fin x H) as (q & -> & Hq). simpl.
  apply negb_true_iff, not_true_iff_false. intros E.
  apply Qeq_bool_iff in E. rewrite E in Hq. now apply (Qlt_irrefl 0).
Qed.

Lemma elem_nth (arr : list number) (n : nat) :
  elem arr (Z.of_nat n) = nth_error arr n.
Proof.
  unfold elem. destruct (Z.ltb_spec (Z.of_nat n) 0); [lia|].
  now rewrite Nat2Z.id.
Qed.

Lemma elem_in_range (arr : list number) (i : Z) :
  (0 <= i < Z.of_nat (List.length arr))%Z ->
  exists v, elem arr i = Some v /\ In v arr.
Proof.
  intros H. unfold elem. destruct (Z.ltb_spec i 0); [lia|].
  destruct (nth_error arr (Z.to_nat i)) as [v|] eqn:E.
  - exists v. split; [reflexivity | eapply nth_error_In; eassumption].
  - apply nth_error_None in E. lia.
Qed.

(** ** The loop of the backtest *)

Section BacktestLoop.

Variable prices_ : list number.
Variables strike premium quantity : number.

#[local] Abbreviation body := (backtest_body prices_ strike premium quantity).
#[local] Abbreviation after := (state_after prices_ strike premium quantity).
#[local] Abbreviation n_periods := (periods (List.length prices_)).

Lemma state_after_S (k : nat) : after (S k) = body (after k).
Proof. reflexivity. Qed.

Lemma state_after_i (k : nat) : l_i (after k) = (30 * Z.of_nat k)%Z.
Proof.
  induction k as [|k IH]; [reflexivity|].
  rewrite state_after_S. cbn [backtest_body l_i]. rewrite IH. lia.
Qed.

Lemma periods_spec (n k : nat) :
  (k < periods n)%nat <-> (30 * Z.of_nat k < Z.of_nat n - 30)%Z.
Proof.
  unfold periods.
  pose proof (Nat.div_mod_eq (n - 1) 30).
  pose proof (Nat.mod_upper_bound (n - 1) 30).
  lia.
Qed.

Lemma periods_le (n : nat) : (periods n <= n)%nat.
Proof.
  unfold periods.
  pose proof (Nat.div_mod_eq (n - 1) 30).
  pose proof (Nat.mod_upper_bound (n - 1) 30).
  lia.
Qed.

Lemma backtest_cond_after (k : nat) :
  backtest_cond prices_ (after k) = (k <? n_periods)%nat.
Proof.
  unfold backtest_cond, prices_length. rewrite state_after_i.
  destruct (Nat.ltb_spec k n_periods) as [H|H].
  - apply Z.ltb_lt. now apply periods_spec.
  - apply Z.ltb_ge. rewrite Nat.le_ngt, periods_spec in H. lia.
Qed.

(** With enough fuel the loop stops because its condition fails, after
    [periods] iterations. *)
Lemma backtest_loop_after (fuel k : nat) :
  (k <= n_periods)%nat ->
  (n_periods - k <= fuel)%nat ->
  backtest_loop prices_ strike premium quantity fuel (after k)
  = after n_periods.
Proof.
  revert k. induction fuel as [|fuel IH]; intros k Hk Hf.
  - simpl. f_equal. lia.
  - simpl. rewrite backtest_cond_after.
    destruct (Nat.ltb_spec k n_periods) as [H|H].
    + rewrite <- state_after_S. apply IH; lia.
    + f_equal. lia.
Qed.

Lemma backtest_loop_final :
  backtest_loop prices_ strike premium quantity (List.length prices_)
    backtest_init
  = after n_periods.
Proof.
  apply (backtest_loop_after (List.length prices_) 0); [lia|].
  pose proof (periods_le (List.length prices_)). lia.
Qed.

(** The loop has really ended: its condition is false in the final state. *)
Lemma backtest_loop_exits :
  backtest_cond prices_
    (backtest_loop prices_ strike premium quantity (List.length prices_)
       backtest_init) = false.
Proof.
  rewrite backtest_loop_final, backtest_cond_after. apply Nat.ltb_irrefl.
Qed.

Lemma results_after_S (k : nat) :
  l_results (after (S k)) =
  l_results (after k) ++
  [ {| date := (30 * Z.of_nat k + 1)%Z;
       stockPrice := exitPrice_at prices_ (30 * Z.of_nat k);
       pnl := tradePnL_at prices_ strike premium quantity (30 * Z.of_nat k);
       cumulativePnL :=
         add (l_totalPnL (after k))
           (tradePnL_at prices_ strike premium quantity (30 * Z.of_nat k)) |} ].
Proof.
  rewrite state_after_S. cbn [backtest_body l_results].
  now rewrite state_after_i.
Qed.

Lemma totalPnL_after_S (k : nat) :
  l_totalPnL (after (S k)) =
  add (l_totalPnL (after k))
    (tradePnL_at prices_ strike premium quantity (30 * Z.of_nat k)).
Proof.
  rewrite state_after_S. cbn [backtest_body l_totalPnL].
  now rewrite state_after_i.
Qed.

Lemma results_after_length (k : nat) : List.length (l_results (after k)) = k.
Proof.
  induction k as [|k IH]; [reflexivity|].
  rewrite results_after_S, length_app, IH. simpl. lia.
Qed.

Lemma totalTrades_after (k : nat) : l_totalTrades (after k) = k.
Proof.
  induction k as [|k IH]; [reflexivity|].
  rewrite state_after_S. cbn [backtest_body l_totalTrades]. now rewrite IH.
Qed.

Lemma pnl_after (k : nat) :
  map pnl (l_results (after k)) =
  map (fun j => tradePnL_at prices_ strike premium quantity (30 * Z.of_nat j))
    (seq 0 k).
Proof.
  induction k as [|k IH]; [reflexivity|].
  rewrite results_after_S, seq_S, !map_app, IH. reflexivity.
Qed.

Lemma stockPrice_after (k : nat) :
  map stockPrice (l_results (after k)) =
  map (fun j => exitPrice_at prices_ (30 * Z.of_nat j)) (seq 0 k).
Proof.
  induction k as [|k IH]; [reflexivity|].
  rewrite results_after_S, seq_S, !map_app, IH. reflexivity.
Qed.

End BacktestLoop.

(** ** The report of the backtest *)

Lemma runCoveredCallBacktest_after
    (cap : number) (ps : list number) (strike premium quantity : number) :
  let st := state_after ps strike premium quantity (periods (List.length ps)) in
  runCoveredCallBacktest cap ps strike premium quantity =
  {| trades := l_results st;
     totalPnL := l_totalPnL st;
     winningTrades := l_winningTrades st;
     totalTrades := l_totalTrades st;
     winRate :=
       mul (div (of_nat (l_winningTrades st)) (of_nat (l_totalTrades st)))
         (of_Z 100);
     avgPnL := div (l_totalPnL st) (of_nat (l_totalTrades st));
     maxDrawdown := Math_min (map cumulativePnL (l_results st));
     finalReturn := mul (div (l_totalPnL st) cap) (of_Z 100) |}.
Proof.
  unfold runCoveredCallBacktest. now rewrite backtest_loop_final.
Qed.

Lemma trades_length
    (cap : number) (ps : list number) (strike premium quantity : number) :
  List.length (trades (runCoveredCallBacktest cap ps strike premium quantity))
  = periods (List.length ps).
Proof.
  rewrite runCoveredCallBacktest_after. cbn [trades].
  apply results_after_length.
Qed.

Lemma totalTrades_periods
    (cap : number) (ps : list number) (strike premium quantity : number) :
  totalTrades (runCoveredCallBacktest cap ps strike premium quantity)
  = periods (List.length ps).
Proof.
  rewrite runCoveredCallBacktest_after. cbn [totalTrades].
  apply totalTrades_after.
Qed.

(** A path of at most 30 prices gives no period. *)
Lemma periods_short (n : nat) : (n <= 30)%nat -> periods n = 0%nat.
Proof.
  intros H. unfold periods. apply Nat.div_small. lia.
Qed.

(** C1. On a path of [N] prices the backtest records
    [floor ((N - 1) / 30)] trades (no trade on the empty path), not
    [floor (N / 30)]: the loop runs while [i < N - 30], so the last block is
    left out when exactly 30 prices remain.  The flat path of 30 prices, below
    the strike, gives no trade at all, where the specification expects one
    period with the premium as its profit. *)
Theorem last_full_block_is_dropped (cap : number) :
  (forall ps strike premium quantity,
     List.length (trades (runCoveredCallBacktest cap ps strike premium quantity))
     = ((List.length ps - 1) / 30)%nat) /\
  (let r := runCoveredCallBacktest cap (flat_path 30) (of_Z 110) (of_Z 5) (of_Z 1) in
   trades r = [] /\ totalTrades r = 0%nat /\ totalPnL r = of_Z 0) /\
  (List.length (flat_path 30) / 30 = 1)%nat.
Proof.
  split; [|split].
  - intros. apply trades_length.
  - repeat split.
  - reflexivity.
Qed.

(** C2, as the code has it.  On the flat path of 29 prices the ratios of the
    report are what the divisions by the zero count of trades and the minimum
    of no value give: [NaN], [NaN] and [+Infinity].  The report carries no
    other mark of missing data. *)
Lemma short_path_ratios_divide_by_zero :
  let r :=
    runCoveredCallBacktest (of_Z 8300000) (flat_path 29)
      (of_Z 110) (of_Z 5) (of_Z 1) in
  totalTrades r = 0%nat /\
  winRate r = mul (div (of_nat 0) (of_nat 0)) (of_Z 100) /\
  winRate r = NaN /\
  avgPnL r = div (of_Z 0) (of_nat 0) /\
  avgPnL r = NaN /\
  maxDrawdown r = Math_min [] /\
  maxDrawdown r = PInf.
Proof. repeat split. Qed.

(** C2, amended.  A path of fewer than 30 prices gives a report with no
    trade, zero counts and a zero total, whose [winRate] and [avgPnL] are
    [NaN] (the result of 0/0) and whose [maxDrawdown] is [+Infinity] (the
    minimum of no value). *)
Theorem short_path_report
    (cap : number) (ps : list number) (strike premium quantity : number) :
  (List.length ps < 30)%nat ->
  let r := runCoveredCallBacktest cap ps strike premium quantity in
  trades r = [] /\ totalTrades r = 0%nat /\ winningTrades r = 0%nat /\
  totalPnL r = of_Z 0 /\
  winRate r = NaN /\ avgPnL r = NaN /\ maxDrawdown r = PInf.
Proof.
  intros H r. subst r. rewrite runCoveredCallBacktest_after.
  rewrite periods_short by lia. repeat split.
Qed.

Lemma short_path_report_witness :
  (List.length (flat_path 29) < 30)%nat /\
  let r :=
    runCoveredCallBacktest (of_Z 8300000) (flat_path 29)
      (of_Z 110) (of_Z 5) (of_Z 1) in
  trades r = [] /\ totalTrades r = 0%nat /\ winningTrades r = 0%nat /\
  totalPnL r = of_Z 0 /\
  winRate r = NaN /\ avgPnL r = NaN /\ maxDrawdown r = PInf.
Proof.
  split.
  - simpl. lia.
  - apply (short_path_report (of_Z 8300000) (flat_path 29)
             (of_Z 110) (of_Z 5) (of_Z 1)).
    simpl. lia.
Defined.

(** ** The running total *)

Lemma running_sums_app (acc x : number) (xs : list number) :
  running_sums acc (xs ++ [x]) =
  running_sums acc xs ++ [add (fold_left add xs acc) x].
Proof.
  revert acc. induction xs as [|y xs IH]; intros acc; simpl.
  - reflexivity.
  - now rewrite IH.
Qed.

Lemma running_sums_length (acc : number) (xs : list number) :
  List.length (running_sums acc xs) = List.length xs.
Proof.
  revert acc. induction xs as [|y xs IH]; intros acc; simpl; [|rewrite IH];
    reflexivity.
Qed.

Lemma running_sums_prefix (acc : number) (xs : list number) :
  running_sums acc xs =
  map (fun i => fold_left add (firstn (S i) xs) acc)
    (seq 0 (List.length xs)).
Proof.
  revert acc. induction xs as [|x xs IH]; intros acc; [reflexivity|].
  cbn [running_sums List.length seq map]. f_equal.
  rewrite IH, <- seq_shift, map_map. reflexivity.
Qed.

Lemma running_sums_last (acc : number) (xs : list number) :
  last (running_sums acc xs) acc = fold_left add xs acc.
Proof.
  induction xs as [|x xs _] using rev_ind; [reflexivity|].
  rewrite running_sums_app, last_last, fold_left_app. reflexivity.
Qed.

Section RunningTotal.

Variable prices_ : list number.
Variables strike premium quantity : number.

#[local] Abbreviation after := (state_after prices_ strike premium quantity).

Lemma totalPnL_after (k : nat) :
  l_totalPnL (after k) = sum_of (map pnl (l_results (after k))).
Proof.
  unfold sum_of. induction k as [|k IH]; [reflexivity|].
  rewrite totalPnL_after_S, results_after_S, map_app, fold_left_app, <- IH.
  reflexivity.
Qed.

Lemma cumulativePnL_after (k : nat) :
  map cumulativePnL (l_results (after k)) =
  running_sums (of_Z 0) (map pnl (l_results (after k))).
Proof.
  induction k as [|k IH]; [reflexivity|].
  rewrite results_after_S, !map_app. cbn [map pnl cumulativePnL].
  rewrite running_sums_app, <- IH. do 2 f_equal.
  rewrite totalPnL_after. reflexivity.
Qed.

End RunningTotal.

(** C6. In every report the cumulative profits are the running sums of the
    period profits: each one is the one before plus the profit of its period
    (the first one starts from zero), the one at index [i] is the sum of the
    profits of the periods [0..i], and [totalPnL] is the last of them (zero
    when there is no trade). *)
Theorem cumulativePnL_is_running_sum
    (cap : number) (ps : list number) (strike premium quantity : number) :
  let r := runCoveredCallBacktest cap ps strike premium quantity in
  let pnls := map pnl (trades r) in
  map cumulativePnL (trades r) = running_sums (of_Z 0) pnls /\
  map cumulativePnL (trades r) =
    map (fun i => sum_of (firstn (S i) pnls)) (seq 0 (List.length (trades r))) /\
  totalPnL r = last (map cumulativePnL (trades r)) (of_Z 0).
Proof.
  intros r pnls. subst r pnls. rewrite runCoveredCallBacktest_after.
  cbn [trades totalPnL].
  rewrite cumulativePnL_after. repeat split.
  - rewrite running_sums_prefix, length_map. reflexivity.
  - rewrite running_sums_last. apply totalPnL_after.
Qed.

(** ** The exit price of a period *)

Lemma exitPrice_in_range (ps : list number) (i : Z) :
  Forall (fun p => positive p = true) ps ->
  (0 <= i < Z.of_nat (List.length ps) - 30)%Z ->
  exists v,
    elem ps (i + 29) = Some v /\ positive v = true /\
    exitPrice_at ps i = Some v.
Proof.
  intros Hpos Hi.
  destruct (elem_in_range ps (i + 29)) as (v & Hv & Hin); [lia|].
  rewrite Forall_forall in Hpos. pose proof (Hpos v Hin) as Pv.
  exists v. repeat split; try assumption.
  unfold exitPrice_at, or. rewrite Hv. cbn [value_truthy].
  now rewrite (positive_truthy v Pv).
Qed.

Lemma entryPrice_in_range (ps : list number) (i : Z) :
  Forall (fun p => positive p = true) ps ->
  (0 <= i < Z.of_nat (List.length ps) - 30)%Z ->
  exists v, entryPrice_at ps i = Some v /\ positive v = true.
Proof.
  intros Hpos Hi.
  destruct (elem_in_range ps i) as (v & Hv & Hin); [lia|].
  rewrite Forall_forall in Hpos. exists v. split; [exact Hv | now apply Hpos].
Qed.

(** C10. On a path of positive prices, every iteration that the loop of the
    backtest runs (its condition holds in the state after [k] iterations)
    reads the exit price at an index [i + 29] inside the path, finds a
    truthy value there, and so takes it: the last price of the path is never
    substituted. *)
Theorem exit_price_fallback_never_taken
    (ps : list number) (strike premium quantity : number) (k : nat) :
  Forall (fun p => positive p = true) ps ->
  backtest_cond ps (state_after ps strike premium quantity k) = true ->
  let i := l_i (state_after ps strike premium quantity k) in
  (0 <= i + 29 < Z.of_nat (List.length ps))%Z /\
  exists v,
    elem ps (i + 29) = Some v /\ value_truthy (elem ps (i + 29)) = true /\
    exitPrice_at ps i = elem ps (i + 29).
Proof.
  intros Hpos Hc i. subst i.
  unfold backtest_cond, prices_length in Hc. apply Z.ltb_lt in Hc.
  rewrite state_after_i in *.
  destruct (exitPrice_in_range ps (30 * Z.of_nat k) Hpos) as (v & Hv & Pv & Hx);
    [lia|].
  split; [lia|]. exists v. rewrite Hx, Hv. repeat split.
  cbn [value_truthy]. now apply positive_truthy.
Qed.

Lemma exit_price_fallback_never_taken_witness :
  Forall (fun p => positive p = true) (flat_path 61) /\
  backtest_cond (flat_path 61)
    (state_after (flat_path 61) (of_Z 110) (of_Z 5) (of_Z 1) 1) = true /\
  exitPrice_at (flat_path 61) 30 = elem (flat_path 61) 59.
Proof.
  assert (P : Forall (fun p => positive p = true) (flat_path 61)).
  { apply Forall_forall. intros x Hx. apply repeat_spec in Hx. now subst x. }
  assert (C : backtest_cond (flat_path 61)
                (state_after (flat_path 61) (of_Z 110) (of_Z 5) (of_Z 1) 1)
              = true) by reflexivity.
  split; [exact P | split; [exact C |]].
  destruct (exit_price_fallback_never_taken
              (flat_path 61) (of_Z 110) (of_Z 5) (of_Z 1) 1 P C)
    as (_ & v & _ & _ & E).
  exact E.
Defined.

(** ** The profit of a period *)

Lemma is_finite_Fin (x : number) :
  is_finite x = true -> exists q, x = Fin q.
Proof. destruct x; try discriminate. intros _. now eexists. Qed.

(** Both sides are finite results of exact arithmetic: compare them as
    rationals. *)
Ltac fin_ring :=
  repeat progress (try unfold fin; try unfold of_Z; cbn [add sub mul neg]);
  f_equal; apply Qred_complete; rewrite ?Qred_correct; ring.

(** The short call: the code's two cases are the premium less the excess of
    the exit price over the strike. *)
Lemma optionPnL_of_max (e s p q : Q) :
  optionPnL_of (Fin s) (Fin p) (Fin q) (Some (Fin e)) =
  sub (mul (mul (Fin p) (Fin q)) (of_Z 100))
    (mul (mul (max2 (sub (Fin e) (Fin s)) (of_Z 0)) (Fin q)) (of_Z 100)).
Proof.
  unfold optionPnL_of, gt. cbn [ToNumber lt].
  assert (Hred : (Qred (e - s) == e - s)%Q) by apply Qred_correct.
  destruct (Qltb s e) eqn:Hse.
  - apply Qltb_lt in Hse.
    assert (Hm : max2 (sub (Fin e) (Fin s)) (of_Z 0) = fin (e - s)).
    { cbn [sub]. unfold max2, fin, of_Z. cbn [lt].
      replace (Qltb (Qred (e - s)) (inject_Z 0)) with false; [reflexivity|].
      symmetry. apply Qltb_ge. rewrite Hred.
      change (inject_Z 0) with 0%Q. lra. }
    rewrite Hm. fin_ring.
  - apply Qltb_ge in Hse.
    assert (Hm : max2 (sub (Fin e) (Fin s)) (of_Z 0) = of_Z 0).
    { cbn [sub]. unfold max2, fin, of_Z. cbn [lt].
      destruct (Qltb (Qred (e - s)) (inject_Z 0)) eqn:Hlt; [reflexivity|].
      apply Qltb_ge in Hlt. rewrite Hred in Hlt. f_equal.
      change (inject_Z 0) with (Qred 0). apply Qred_complete.
      change (inject_Z 0) with 0%Q in Hlt. lra. }
    rewrite Hm. fin_ring.
Qed.

Lemma tradePnL_at_spec
    (ps : list number) (strike premium quantity : number) (i : Z) :
  Forall (fun p => positive p = true) ps ->
  is_finite strike = true -> is_finite premium = true ->
  is_finite quantity = true ->
  (0 <= i < Z.of_nat (List.length ps) - 30)%Z ->
  tradePnL_at ps strike premium quantity i =
  spec_periodPnL ps strike premium quantity i.
Proof.
  intros Hpos Hs Hp Hq Hi.
  destruct (is_finite_Fin _ Hs) as (s & ->).
  destruct (is_finite_Fin _ Hp) as (p & ->).
  destruct (is_finite_Fin _ Hq) as (q & ->).
  destruct (exitPrice_in_range ps i Hpos Hi) as (v & Hv & Pv & Hx).
  destruct (positive_Fin v Pv) as (e & -> & _).
  unfold tradePnL_at, spec_periodPnL, spec_stockPnL, spec_optionPnL.
  rewrite Hx, Hv, optionPnL_of_max. reflexivity.
Qed.

(** C7. On a path of positive prices, with a finite strike, premium and
    quantity, one trade is recorded for each of the [periods] periods that
    the loop evaluates, and the profit recorded for the period that starts
    at index [30 j] is [stockPnL + optionPnL], where
    [stockPnL = (exitPrice - entryPrice) * quantity * 100] and
    [optionPnL = premium * quantity * 100
                 - max (exitPrice - strike, 0) * quantity * 100],
    with [entryPrice = prices[30 j]] and [exitPrice = prices[30 j + 29]];
    the price recorded with it is that exit price. *)
Theorem period_pnl_is_stock_plus_short_call
    (cap : number) (ps : list number) (strike premium quantity : number) :
  Forall (fun p => positive p = true) ps ->
  is_finite strike = true -> is_finite premium = true ->
  is_finite quantity = true ->
  let r := runCoveredCallBacktest cap ps strike premium quantity in
  List.length (trades r) = periods (List.length ps) /\
  map pnl (trades r) =
    map (fun j => spec_periodPnL ps strike premium quantity (30 * Z.of_nat j))
      (seq 0 (periods (List.length ps))) /\
  map stockPrice (trades r) =
    map (fun j => elem ps (30 * Z.of_nat j + 29))
      (seq 0 (periods (List.length ps))).
Proof.
  intros Hpos Hs Hp Hq r. subst r. split; [apply trades_length|].
  rewrite runCoveredCallBacktest_after. cbn [trades].
  rewrite pnl_after, stockPrice_after. split.
  - apply map_ext_in. intros j Hj. apply in_seq in Hj.
    apply tradePnL_at_spec; try assumption.
    pose proof (proj1 (periods_spec (List.length ps) j)). lia.
  - apply map_ext_in. intros j Hj. apply in_seq in Hj.
    destruct (exitPrice_in_range ps (30 * Z.of_nat j) Hpos) as (v & Hv & _ & Hx).
    + pose proof (proj1 (periods_spec (List.length ps) j)). lia.
    + now rewrite Hx, Hv.
Qed.

Lemma flat_path_positive (n : nat) :
  Forall (fun p => positive p = true) (flat_path n).
Proof.
  apply Forall_forall. intros x Hx. apply repeat_spec in Hx. now subst x.
Qed.

Lemma period_pnl_is_stock_plus_short_call_witness :
  Forall (fun p => positive p = true) (flat_path 61) /\
  is_finite (of_Z 110) = true /\ is_finite (of_Z 5) = true /\
  is_finite (of_Z 1) = true /\
  let r :=
    runCoveredCallBacktest (of_Z 8300000) (flat_path 61)
      (of_Z 110) (of_Z 5) (of_Z 1) in
  List.length (trades r) = 2%nat /\
  map pnl (trades r) =
    map (fun j =>
           spec_periodPnL (flat_path 61) (of_Z 110) (of_Z 5) (of_Z 1)
             (30 * Z.of_nat j))
      (seq 0 2) /\
  map stockPrice (trades r) =
    map (fun j => elem (flat_path 61) (30 * Z.of_nat j + 29))
      (seq 0 2).
Proof.
  split; [apply flat_path_positive|].
  do 3 (split; [reflexivity|]).
  apply (period_pnl_is_stock_plus_short_call (of_Z 8300000) (flat_path 61)
           (of_Z 110) (of_Z 5) (of_Z 1));
    [apply flat_path_positive | reflexivity ..].
Defined.

(** ** The minimum of the cumulative profits *)

Lemma number_le_refl (x : number) : is_nan x = false -> le x x = true.
Proof.
  destruct x; try reflexivity; try discriminate.
  intros _. apply Qle_bool_iff, Qle_refl.
Qed.

Lemma number_le_trans (x y z : number) :
  le x y = true -> le y z = true -> le x z = true.
Proof.
  destruct x, y, z; simpl; try reflexivity; try discriminate.
  rewrite !Qle_bool_iff. apply Qle_trans.
Qed.

Lemma min2_cases (a b : number) :
  is_nan a = false -> is_nan b = false ->
  (min2 a b = a \/ min2 a b = b) /\
  le (min2 a b) a = true /\ le (min2 a b) b = true.
Proof.
  intros Ha Hb. unfold min2.
  destruct a as [a| | |], b as [b| | |]; try discriminate; simpl;
    try (repeat split; auto; fail).
  - destruct (Qltb b a) eqn:E; simpl.
    + apply Qltb_lt in E. repeat split; auto; apply Qle_bool_iff; lra.
    + apply Qltb_ge in E. repeat split; auto; apply Qle_bool_iff; lra.
  - repeat split; auto. apply Qle_bool_iff; lra.
  - repeat split; auto. apply Qle_bool_iff; lra.
Qed.

Lemma min2_not_nan (a b : number) :
  is_nan a = false -> is_nan b = false -> is_nan (min2 a b) = false.
Proof.
  intros Ha Hb. destruct (min2_cases a b Ha Hb) as ([-> | ->] & _); assumption.
Qed.

Lemma fold_min2_spec (xs : list number) (acc : number) :
  is_nan acc = false ->
  Forall (fun x => is_nan x = false) xs ->
  let m := fold_left min2 xs acc in
  (m = acc \/ In m xs) /\ le m acc = true /\
  Forall (fun x => le m x = true) xs.
Proof.
  revert acc. induction xs as [|x xs IH]; intros acc Hacc Hxs; simpl.
  - repeat split; auto. now apply number_le_refl.
  - inversion Hxs as [|? ? Hx Hxs']; subst.
    destruct (min2_cases acc x Hacc Hx) as (Hsel & Hla & Hlx).
    destruct (IH (min2 acc x) (min2_not_nan acc x Hacc Hx) Hxs')
      as (Hin & Hle & Hall).
    repeat split.
    + destruct Hin as [E | Hin]; [|now right; right].
      rewrite E. destruct Hsel as [-> | ->]; [now left | now right; left].
    + eapply number_le_trans; eassumption.
    + constructor; [eapply number_le_trans; eassumption | exact Hall].
Qed.

(** On at least one number, none of them NaN, [Math.min] returns one of its
    arguments, below all of them. *)
Lemma Math_min_spec (xs : list number) :
  xs <> [] ->
  Forall (fun x => is_finite x = true) xs ->
  In (Math_min xs) xs /\ Forall (fun x => le (Math_min xs) x = true) xs.
Proof.
  intros Hne Hfin.
  assert (Hnan : Forall (fun x => is_nan x = false) xs).
  { eapply Forall_impl; [|exact Hfin]. intros x; now destruct x. }
  destruct (fold_min2_spec xs PInf eq_refl Hnan) as (Hin & _ & Hall).
  fold (Math_min xs) in Hin, Hall. split; [|exact Hall].
  destruct Hin as [E | Hin]; [|exact Hin].
  destruct xs as [|x xs]; [contradiction|].
  inversion Hall as [|? ? Hx _]; subst. inversion Hfin as [|? ? Fx _]; subst.
  rewrite E in Hx. destruct x; discriminate.
Qed.

Lemma add_finite (x y : number) :
  is_finite x = true -> is_finite y = true -> is_finite (add x y) = true.
Proof. destruct x, y; try discriminate; reflexivity. Qed.

Section FiniteProfits.

Variable prices_ : list number.
Variables strike premium quantity : number.

Hypothesis prices_positive : Forall (fun p => positive p = true) prices_.
Hypothesis strike_finite : is_finite strike = true.
Hypothesis premium_finite : is_finite premium = true.
Hypothesis quantity_finite : is_finite quantity = true.

#[local] Abbreviation after := (state_after prices_ strike premium quantity).

Lemma tradePnL_at_finite (i : Z) :
  (0 <= i < Z.of_nat (List.length prices_) - 30)%Z ->
  is_finite (tradePnL_at prices_ strike premium quantity i) = true.
Proof.
  intros Hi.
  destruct (is_finite_Fin _ strike_finite) as (s & Es).
  destruct (is_finite_Fin _ premium_finite) as (p & Ep).
  destruct (is_finite_Fin _ quantity_finite) as (q & Eq).
  destruct (exitPrice_in_range prices_ i prices_positive Hi)
    as (v & _ & Pv & Hx).
  destruct (entryPrice_in_range prices_ i prices_positive Hi)
    as (w & Hw & Pw).
  destruct (positive_Fin v Pv) as (e & -> & _).
  destruct (positive_Fin w Pw) as (a & -> & _).
  unfold tradePnL_at, stockPnL_of, optionPnL_of.
  rewrite Hx, Hw, Es, Ep, Eq. cbn [ToNumber].
  destruct (gt (Fin e) (Fin s)); reflexivity.
Qed.

Lemma totalPnL_after_finite (k : nat) :
  (k <= periods (List.length prices_))%nat ->
  is_finite (l_totalPnL (after k)) = true.
Proof.
  induction k as [|k IH]; intros Hk; [reflexivity|].
  rewrite totalPnL_after_S. apply add_finite; [apply IH; lia|].
  apply tradePnL_at_finite.
  pose proof (proj1 (periods_spec (List.length prices_) k)). lia.
Qed.

Lemma cumulativePnL_after_finite (k : nat) :
  (k <= periods (List.length prices_))%nat ->
  Forall (fun c => is_finite c = true)
    (map cumulativePnL (l_results (after k))).
Proof.
  induction k as [|k IH]; intros Hk; [constructor|].
  rewrite results_after_S, map_app. apply Forall_app. split; [apply IH; lia|].
  constructor; [|constructor]. cbn [cumulativePnL].
  rewrite <- totalPnL_after_S. now apply totalPnL_after_finite.
Qed.

End FiniteProfits.

(** C5, as the code has it.  On the flat path of 31 prices at 100, below the
    strike 110, the only cumulative profit is the premium kept, 500: none is
    negative, and [maxDrawdown] is 500, not zero. *)
Lemma maxDrawdown_not_zero_without_loss :
  let r :=
    runCoveredCallBacktest (of_Z 8300000) (flat_path 31)
      (of_Z 110) (of_Z 5) (of_Z 1) in
  map cumulativePnL (trades r) = [of_Z 500] /\
  Forall (fun c => lt c (of_Z 0) = false) (map cumulativePnL (trades r)) /\
  maxDrawdown r = of_Z 500 /\
  maxDrawdown r <> of_Z 0.
Proof.
  repeat split.
  - repeat constructor.
  - discriminate.
Qed.

(** C5, amended.  In exact arithmetic, on a path of positive prices that
    gives at least one period, with a finite strike, premium and quantity,
    [maxDrawdown] is the minimum of the cumulative profits: it is one of them
    and none is below it.  It is not replaced by zero when none is
    negative. *)
Theorem maxDrawdown_is_least_cumulativePnL
    (cap : number) (ps : list number) (strike premium quantity : number) :
  Forall (fun p => positive p = true) ps ->
  is_finite strike = true -> is_finite premium = true ->
  is_finite quantity = true ->
  (30 < List.length ps)%nat ->
  let r := runCoveredCallBacktest cap ps strike premium quantity in
  trades r <> [] /\
  In (maxDrawdown r) (map cumulativePnL (trades r)) /\
  Forall (fun c => le (maxDrawdown r) c = true)
    (map cumulativePnL (trades r)).
Proof.
  intros Hpos Hs Hp Hq Hlen r.
  assert (Hne : trades r <> []).
  { intros E. apply (f_equal (@List.length _)) in E. subst r.
    rewrite trades_length in E. simpl in E.
    assert (0 < periods (List.length ps))%nat; [|lia].
    apply periods_spec. lia. }
  split; [exact Hne|]. subst r.
  rewrite runCoveredCallBacktest_after in *. cbn [trades maxDrawdown] in *.
  apply Math_min_spec.
  - intros E. apply map_eq_nil in E. contradiction.
  - now apply cumulativePnL_after_finite.
Qed.

Lemma maxDrawdown_is_least_cumulativePnL_witness :
  Forall (fun p => positive p = true) (flat_path 61) /\
  (30 < List.length (flat_path 61))%nat /\
  let r :=
    runCoveredCallBacktest (of_Z 8300000) (flat_path 61)
      (of_Z 110) (of_Z 5) (of_Z 1) in
  trades r <> [] /\
  In (maxDrawdown r) (map cumulativePnL (trades r)) /\
  Forall (fun c => le (maxDrawdown r) c = true)
    (map cumulativePnL (trades r)).
Proof.
  split; [apply flat_path_positive|].
  split; [simpl; lia|].
  apply (maxDrawdown_is_least_cumulativePnL (of_Z 8300000) (flat_path 61)
           (of_Z 110) (of_Z 5) (of_Z 1));
    [apply flat_path_positive | reflexivity | reflexivity | reflexivity
    | simpl; lia].
Defined.

(** ** Pricing at expiry *)

Lemma max2_fin_zero (a : Q) : max2 (fin a) (of_Z 0) = fin (Qmax a 0).
Proof.
  unfold max2, fin, of_Z. cbn [lt]. change (inject_Z 0) with 0%Q.
  pose proof (Qred_correct a) as Hred.
  destruct (Qltb (Qred a) 0) eqn:E.
  - apply Qltb_lt in E. f_equal. change 0%Q with (Qred 0) at 1.
    apply Qred_complete. symmetry. apply Q.max_r. lra.
  - apply Qltb_ge in E. f_equal. apply Qred_complete. symmetry.
    apply Q.max_l. lra.
Qed.

(** C4. With zero days to expiry the pricing returns the intrinsic values
    [max (S - K, 0)] and [max (K - S, 0)], and five Greeks: [delta], which is
    1 when [S > K] and 0 otherwise, and [gamma], [theta], [vega] and [rho],
    all zero; at [S = K = 100] both prices are zero.  This holds whatever the
    rate, the volatility and the host's [Math] functions are. *)
Theorem expiry_returns_intrinsic_value
    (Math_sqrt Math_exp Math_log : number -> number) (Math_PI : number)
    (s k : Q) (r sigma : number) :
  let price := calculateBlackScholes Math_sqrt Math_exp Math_log Math_PI in
  let res := price (Fin s) (Fin k) (of_Z 0) r sigma in
  callPrice res = fin (Qmax (s - k) 0) /\
  putPrice res = fin (Qmax (k - s) 0) /\
  greeks res =
    [ ("delta"%string, if Qlt_le_dec k s then of_Z 1 else of_Z 0);
      ("gamma"%string, of_Z 0);
      ("theta"%string, of_Z 0);
      ("vega"%string, of_Z 0);
      ("rho"%string, of_Z 0) ] /\
  callPrice (price (of_Z 100) (of_Z 100) (of_Z 0) (dec 5 2) (dec 2 1))
    = of_Z 0 /\
  putPrice (price (of_Z 100) (of_Z 100) (of_Z 0) (dec 5 2) (dec 2 1))
    = of_Z 0.
Proof.
  intros price res. subst res price. unfold calculateBlackScholes.
  change (le (div (of_Z 0) (of_Z 365)) (of_Z 0)) with true. cbv iota.
  cbn [callPrice putPrice greeks]. repeat split.
  - apply (max2_fin_zero (s - k)).
  - apply (max2_fin_zero (k - s)).
  - do 2 f_equal. unfold gt. cbn [lt].
    destruct (Qlt_le_dec k s) as [H|H].
    + apply Qltb_lt in H. now rewrite H.
    + apply Qltb_ge in H. now rewrite H.
Qed.

(** ** The loop of the generator *)

Section GeneratorLoop.

Variable days : Z.
Variables volatility startPrice : number.

#[local] Abbreviation gen_after := (generate_after volatility startPrice).

Lemma generate_after_S (s : rng) (k : nat) :
  gen_after s (S k) = generate_body volatility (gen_after s k).
Proof. reflexivity. Qed.

Lemma generate_after_i (s : rng) (k : nat) :
  g_i (gen_after s k) = (1 + Z.of_nat k)%Z.
Proof.
  induction k as [|k IH]; [reflexivity|].
  rewrite generate_after_S. cbn [generate_body g_i Math_random].
  rewrite IH. lia.
Qed.

Lemma generate_after_rng (s : rng) (k n : nat) :
  g_rng (gen_after s k) n = s (n + k)%nat.
Proof.
  revert n. induction k as [|k IH]; intros n.
  - simpl. now rewrite Nat.add_0_r.
  - rewrite generate_after_S. cbn [generate_body g_rng Math_random].
    rewrite IH. f_equal. lia.
Qed.

Lemma generate_after_length (s : rng) (k : nat) :
  List.length (g_prices (gen_after s k)) = S k.
Proof.
  induction k as [|k IH]; [reflexivity|].
  rewrite generate_after_S. cbn [generate_body g_prices Math_random].
  rewrite length_app, IH. simpl. lia.
Qed.

Lemma generate_after_prices_S (s : rng) (k : nat) :
  g_prices (gen_after s (S k)) =
  g_prices (gen_after s k) ++
  [ max2 (mul (ToNumber (nth_error (g_prices (gen_after s k)) k))
            (add (of_Z 1) (step_of volatility s k)))
      (of_Z 1) ].
Proof.
  rewrite generate_after_S. cbn [generate_body g_prices Math_random].
  rewrite generate_after_i, generate_after_rng.
  replace (1 + Z.of_nat k - 1)%Z with (Z.of_nat k) by lia.
  rewrite elem_nth. reflexivity.
Qed.

Lemma generate_after_returns_S (s : rng) (k : nat) :
  g_returns (gen_after s (S k)) = g_returns (gen_after s k) ++ [step_of volatility s k].
Proof.
  rewrite generate_after_S. cbn [generate_body g_returns Math_random].
  rewrite generate_after_rng. reflexivity.
Qed.

(** With enough fuel the loop stops because its condition fails, after
    [days - 1] iterations (none when [days <= 1]). *)
Lemma generate_loop_after (s : rng) (fuel k : nat) :
  (k <= Z.to_nat (days - 1))%nat ->
  (Z.to_nat (days - 1) - k <= fuel)%nat ->
  generate_loop days volatility fuel (gen_after s k)
  = gen_after s (Z.to_nat (days - 1)).
Proof.
  revert k. induction fuel as [|fuel IH]; intros k Hk Hf.
  - simpl. f_equal. lia.
  - simpl. rewrite generate_after_i.
    destruct (Z.ltb_spec (1 + Z.of_nat k) days) as [H|H].
    + rewrite <- generate_after_S. apply IH; lia.
    + f_equal. lia.
Qed.

Lemma generateMockPriceData_after (symbol : string) (s : rng) :
  generateMockPriceData symbol days startPrice volatility s =
  let st := gen_after s (Z.to_nat (days - 1)) in
  ({| prices := g_prices st; returns := g_returns st |}, g_rng st).
Proof.
  unfold generateMockPriceData.
  change {| g_i := 1; g_prices := [startPrice]; g_returns := [];
            g_rng := s |} with (gen_after s 0).
  rewrite generate_loop_after by lia. reflexivity.
Qed.

(** The data generated depend on the draws consumed only. *)
Lemma generate_after_ext (s s' : rng) (k : nat) :
  (forall n, (n < k)%nat -> s n = s' n) ->
  g_prices (gen_after s k) = g_prices (gen_after s' k) /\
  g_returns (gen_after s k) = g_returns (gen_after s' k).
Proof.
  induction k as [|k IH]; intros H; [split; reflexivity|].
  destruct IH as (Hp & Hr); [intros n Hn; apply H; lia|].
  rewrite !generate_after_prices_S, !generate_after_returns_S.
  unfold step_of. rewrite Hp, Hr, (H k) by lia. split; reflexivity.
Qed.

End GeneratorLoop.

(** ** The generated path *)

Lemma step_of_range (v : number) (s : rng) (k : nat) :
  positive v = true -> unit_draw (s k) = true ->
  is_finite (step_of v s k) = true /\
  le (neg v) (step_of v s k) = true /\ le (step_of v s k) v = true.
Proof.
  intros Hv Hd. destruct (positive_Fin v Hv) as (qv & -> & Hqv).
  unfold step_of.
  destruct (s k) as [d| | |]; try discriminate.
  cbn [unit_draw] in Hd. apply andb_true_iff in Hd. destruct Hd as (H0 & H1).
  apply Qle_bool_iff in H0. apply Qltb_lt in H1.
  change (dec 5 1) with (Fin (1 # 2)). change (of_Z 2) with (Fin 2).
  cbn [sub mul neg le is_finite]. unfold fin. cbn [le].
  split; [reflexivity|].
  split; apply Qle_bool_iff; rewrite !Qred_correct; nra.
Qed.

Lemma next_price_floor (x u : number) :
  positive x = true -> is_finite u = true ->
  let y := max2 (mul x (add (of_Z 1) u)) (of_Z 1) in
  positive y = true /\ le (of_Z 1) y = true.
Proof.
  intros Hx Hu. destruct (positive_Fin x Hx) as (qx & -> & _).
  destruct (is_finite_Fin u Hu) as (qu & ->).
  cbn [add mul of_Z]. unfold fin, max2, of_Z. cbn [lt].
  change (inject_Z 1) with 1%Q.
  destruct (Qltb (Qred (qx * Qred (1 + qu))) 1) eqn:E.
  - split; reflexivity.
  - apply Qltb_ge in E. cbn [positive le]. split.
    + apply Qltb_lt. lra.
    + now apply Qle_bool_iff.
Qed.

Section GeneratedPath.

Variable days : Z.
Variables volatility startPrice : number.
Variable s : rng.

Hypothesis startPrice_positive : positive startPrice = true.
Hypothesis volatility_positive : positive volatility = true.
Hypothesis draws_in_unit : forall n, unit_draw (s n) = true.

#[local] Abbreviation path_after :=
  (fun k => g_prices (generate_after volatility startPrice s k)).

Lemma path_after_positive (k : nat) :
  Forall (fun p => positive p = true) (path_after k).
Proof.
  induction k as [|k IH].
  - repeat constructor. exact startPrice_positive.
  - rewrite generate_after_prices_S. apply Forall_app. split; [exact IH|].
    constructor; [|constructor].
    destruct (nth_error (path_after k) k) as [x|] eqn:E.
    + apply next_price_floor.
      * rewrite Forall_forall in IH. apply IH. eapply nth_error_In, E.
      * now apply step_of_range.
    + apply nth_error_None in E. rewrite generate_after_length in E. lia.
Qed.

Lemma path_after_prefix (k j : nat) :
  (j <= k)%nat ->
  forall i, (i <= j)%nat ->
  nth_error (path_after k) i = nth_error (path_after j) i.
Proof.
  induction k as [|k IH]; intros Hj i Hi.
  - replace j with 0%nat by lia. reflexivity.
  - destruct (Nat.eq_dec j (S k)) as [->|Hne]; [reflexivity|].
    rewrite generate_after_prices_S, nth_error_app1.
    + apply IH; lia.
    + rewrite generate_after_length. lia.
Qed.

Lemma path_after_step (k : nat) :
  exists x y,
    nth_error (path_after (S k)) k = Some x /\
    nth_error (path_after (S k)) (S k) = Some y /\
    random_step volatility x y /\ le (of_Z 1) y = true.
Proof.
  destruct (nth_error (path_after k) k) as [x|] eqn:E.
  2:{ apply nth_error_None in E. rewrite generate_after_length in E. lia. }
  assert (Px : positive x = true).
  { pose proof (path_after_positive k) as P. rewrite Forall_forall in P.
    apply P. eapply nth_error_In, E. }
  destruct (step_of_range volatility s k volatility_positive (draws_in_unit k))
    as (Fu & Hlo & Hhi).
  exists x, (max2 (mul x (add (of_Z 1) (step_of volatility s k))) (of_Z 1)).
  repeat split.
  - rewrite (path_after_prefix (S k) k) by lia. exact E.
  - rewrite generate_after_prices_S, E, nth_error_app2;
      rewrite generate_after_length; [|lia].
    now rewrite Nat.sub_diag.
  - exists (step_of volatility s k). repeat split; assumption.
  - now apply next_price_floor.
Qed.

End GeneratedPath.

(** C8, as the code has it.  The start price is pushed as it is: from the
    start price 0.5 the path is [0.5; 1; 1], whose first element is below
    the floor of 1 that the later elements get. *)
Lemma start_price_is_not_floored :
  prices (fst (generateMockPriceData "RELIANCE" 3 (dec 5 1) (dec 1 1)
                 sample_draws)) = [dec 5 1; of_Z 1; of_Z 1] /\
  positive (dec 5 1) = true /\
  lt (dec 5 1) (of_Z 1) = true.
Proof. repeat split. Qed.

(** C8, amended.  In exact arithmetic, for a positive start price, at least
    one day, a positive daily volatility and draws of [Math.random] in
    [0, 1), the generated path has [numDays] prices; its first element is the
    start price as it is, not floored; each later price is the one before
    times [1 + u] for some [u] within the volatility, floored at 1 (so it is
    at least 1); every price of the path is positive. *)
Theorem generated_path_is_floored_random_walk
    (symbol : string) (days : Z) (startPrice volatility : number) (s : rng) :
  positive startPrice = true ->
  (1 <= days)%Z ->
  positive volatility = true ->
  (forall n, unit_draw (s n) = true) ->
  let path :=
    prices (fst (generateMockPriceData symbol days startPrice volatility s)) in
  List.length path = Z.to_nat days /\
  nth_error path 0 = Some startPrice /\
  (forall j, (S j < Z.to_nat days)%nat ->
     exists x y,
       nth_error path j = Some x /\ nth_error path (S j) = Some y /\
       random_step volatility x y /\ le (of_Z 1) y = true) /\
  Forall (fun p => positive p = true) path.
Proof.
  intros Hs Hd Hv Hr path. subst path.
  rewrite generateMockPriceData_after. cbn [fst prices].
  repeat split.
  - rewrite generate_after_length. lia.
  - rewrite (path_after_prefix volatility startPrice s _ 0) by lia.
    reflexivity.
  - intros j Hj.
    destruct (path_after_step volatility startPrice s Hs Hv Hr j)
      as (x & y & Ex & Ey & Hstep & Hy).
    exists x, y.
    do 2 (rewrite (path_after_prefix volatility startPrice s
                     (Z.to_nat (days - 1)) (S j)) by lia).
    split; [exact Ex | split; [exact Ey | split; [exact Hstep | exact Hy]]].
  - now apply path_after_positive.
Qed.

Lemma sample_draws_in_unit (n : nat) : unit_draw (sample_draws n) = true.
Proof. do 3 (destruct n as [|n]; [reflexivity|]). reflexivity. Qed.

Lemma generated_path_is_floored_random_walk_witness :
  positive (of_Z 100) = true /\ (1 <= 3)%Z /\ positive (dec 1 1) = true /\
  (forall n, unit_draw (sample_draws n) = true) /\
  let path :=
    prices (fst (generateMockPriceData "RELIANCE" 3 (of_Z 100) (dec 1 1)
                   sample_draws)) in
  List.length path = 3%nat /\
  nth_error path 0 = Some (of_Z 100) /\
  Forall (fun p => positive p = true) path.
Proof.
  split; [reflexivity|]. split; [lia|]. split; [reflexivity|].
  split; [exact sample_draws_in_unit|].
  destruct (generated_path_is_floored_random_walk "RELIANCE" 3
              (of_Z 100) (dec 1 1) sample_draws
              eq_refl ltac:(lia) eq_refl sample_draws_in_unit)
    as (Hlen & Hhd & _ & Hpos).
  repeat split; assumption.
Defined.

(** ** The generator and its source of randomness *)

(** C9, as the code has it.  The generator has no parameter for a source of
    randomness or a seed: it draws from the global [Math.random].  Two runs
    in a row on the same start price, number of days and volatility give
    different paths, as the second starts from the state the first left. *)
Lemma same_arguments_different_paths :
  two_runs "RELIANCE" 3 (of_Z 100) (dec 1 1) sample_draws =
    ([of_Z 100; of_Z 105; Fin (399 # 4)], [of_Z 100; of_Z 90; of_Z 90]) /\
  fst (two_runs "RELIANCE" 3 (of_Z 100) (dec 1 1) sample_draws) <>
  snd (two_runs "RELIANCE" 3 (of_Z 100) (dec 1 1) sample_draws).
Proof.
  split; [reflexivity | discriminate].
Qed.

(** C9, amended.  The path is a function of the start price, the number of
    days, the volatility and the draws that [Math.random] returns during the
    run: two runs on the same three arguments that get the same first
    [numDays - 1] draws give the same prices and the same returns. *)
Theorem path_determined_by_draws
    (symbol symbol' : string) (days : Z) (startPrice volatility : number)
    (s s' : rng) :
  (forall n, (n < Z.to_nat (days - 1))%nat -> s n = s' n) ->
  fst (generateMockPriceData symbol days startPrice volatility s) =
  fst (generateMockPriceData symbol' days startPrice volatility s').
Proof.
  intros H. rewrite !generateMockPriceData_after. cbn [fst].
  destruct (generate_after_ext volatility startPrice s s' _ H) as (-> & ->).
  reflexivity.
Qed.

Lemma path_determined_by_draws_witness :
  (forall n, (n < Z.to_nat (3 - 1))%nat ->
     sample_draws n = (fun k => if (k <? 2)%nat then sample_draws k else of_Z 0) n) /\
  fst (generateMockPriceData "RELIANCE" 3 (of_Z 100) (dec 1 1) sample_draws) =
  fst (generateMockPriceData "INFY" 3 (of_Z 100) (dec 1 1)
         (fun k => if (k <? 2)%nat then sample_draws k else of_Z 0)).
Proof.
  assert (H : forall n, (n < Z.to_nat (3 - 1))%nat ->
            sample_draws n =
            (fun k => if (k <? 2)%nat then sample_draws k else of_Z 0) n).
  { intros n Hn. simpl in Hn.
    destruct n as [|[|n]]; [reflexivity | reflexivity | lia]. }
  split; [exact H|].
  apply (path_determined_by_draws "RELIANCE" "INFY" 3 (of_Z 100) (dec 1 1)
           sample_draws _ H).
Defined.

(** ** Put-call parity before the floor *)

(** In exact arithmetic the two prices that [calculateBlackScholes] computes
    before flooring them at zero differ by [S - K * exp (- r T)], whatever
    values [normalCDF] and the exponential return: the approximation of the
    normal distribution cancels out.  What is left of the parity in the code
    is the rounding of the floating-point operations and the two floors. *)
Lemma unfloored_prices_parity (S K E Nd1 Nd2 : Q) :
  sub
    (sub (mul (Fin S) (Fin Nd1)) (mul (mul (Fin K) (Fin E)) (Fin Nd2)))
    (sub (mul (mul (Fin K) (Fin E)) (sub (of_Z 1) (Fin Nd2)))
         (mul (Fin S) (sub (of_Z 1) (Fin Nd1))))
  = sub (Fin S) (mul (Fin K) (Fin E)).
Proof. fin_ring. Qed.

(** * Further properties of the component *)

(** ** Counts and rates of the backtest *)

Section BacktestCounts.

Variable prices_ : list number.
Variables strike premium quantity : number.

#[local] Abbreviation after := (state_after prices_ strike premium quantity).

Lemma winningTrades_after (k : nat) :
  l_winningTrades (after k) =
  List.length (filter (fun t => gt (pnl t) (of_Z 0)) (l_results (after k))).
Proof.
  induction k as [|k IH]; [reflexivity|].
  rewrite results_after_S, filter_app, length_app, <- IH.
  rewrite state_after_S. cbn [backtest_body l_winningTrades filter pnl].
  rewrite state_after_i.
  fold (tradePnL_at prices_ strike premium quantity (30 * Z.of_nat k)).
  destruct (gt (tradePnL_at prices_ strike premium quantity (30 * Z.of_nat k))
              (of_Z 0)); simpl; lia.
Qed.

Lemma date_after (k : nat) :
  map date (l_results (after k)) =
  map (fun j => (30 * Z.of_nat j + 1)%Z) (seq 0 k).
Proof.
  induction k as [|k IH]; [reflexivity|].
  rewrite results_after_S, seq_S, !map_app, IH. reflexivity.
Qed.

End BacktestCounts.

Lemma report_counts
    (cap : number) (ps : list number) (strike premium quantity : number) :
  let r := runCoveredCallBacktest cap ps strike premium quantity in
  totalTrades r = List.length (trades r) /\
  winningTrades r =
    List.length (filter (fun t => gt (pnl t) (of_Z 0)) (trades r)) /\
  (winningTrades r <= totalTrades r)%nat.
Proof.
  intros r. subst r. rewrite runCoveredCallBacktest_after.
  cbn [trades totalTrades winningTrades].
  rewrite totalTrades_after, results_after_length, winningTrades_after.
  repeat split.
  rewrite <- (results_after_length ps strike premium quantity
               (periods (List.length ps))) at 2.
  apply filter_length_le.
Qed.

(** X1. In every report, [totalTrades] is the number of trade records and
    [winningTrades] is the number of those whose profit is above zero; so
    the wins never exceed the trades. *)
Theorem winningTrades_counts_positive_pnl
    (cap : number) (ps : list number) (strike premium quantity : number) :
  let r := runCoveredCallBacktest cap ps strike premium quantity in
  totalTrades r = List.length (trades r) /\
  winningTrades r =
    List.length (filter (fun t => gt (pnl t) (of_Z 0)) (trades r)) /\
  (winningTrades r <= totalTrades r)%nat.
Proof. apply report_counts. Qed.

Lemma of_nat_ratio (w t : nat) :
  (w <= t)%nat -> (0 < t)%nat ->
  exists q : Q,
    mul (div (of_nat w) (of_nat t)) (of_Z 100) = Fin q /\
    (0 <= q)%Q /\ (q <= 100)%Q.
Proof.
  intros Hw Ht. unfold of_nat, of_Z. cbn [div].
  assert (Ht' : (0 < inject_Z (Z.of_nat t))%Q).
  { change 0%Q with (inject_Z 0). rewrite <- Zlt_Qlt. lia. }
  assert (Hw0 : (0 <= inject_Z (Z.of_nat w))%Q).
  { change 0%Q with (inject_Z 0). rewrite <- Zle_Qle. lia. }
  assert (Hwt : (inject_Z (Z.of_nat w) <= inject_Z (Z.of_nat t))%Q).
  { rewrite <- Zle_Qle. lia. }
  destruct (Qeq_bool (inject_Z (Z.of_nat t)) 0) eqn:E.
  { apply Qeq_bool_iff in E. rewrite E in Ht'. now apply Qlt_irrefl in Ht'. }
  cbn [fin mul]. unfold fin. eexists. split; [reflexivity|].
  rewrite !Qred_correct. change (inject_Z 100) with 100%Q.
  set (a := inject_Z (Z.of_nat w)) in *. set (b := inject_Z (Z.of_nat t)) in *.
  assert (H0 : (0 <= a / b)%Q).
  { apply Qle_shift_div_l; [exact Ht'|]. lra. }
  assert (H1 : (a / b <= 1)%Q).
  { apply Qle_shift_div_r; [exact Ht'|]. lra. }
  split; lra.
Qed.

Lemma winRate_percentage_of_length
    (cap : number) (ps : list number) (strike premium quantity : number) :
  (30 < List.length ps)%nat ->
  exists q : Q,
    winRate (runCoveredCallBacktest cap ps strike premium quantity) = Fin q /\
    (0 <= q)%Q /\ (q <= 100)%Q.
Proof.
  intros Hlen.
  destruct (report_counts cap ps strike premium quantity) as (_ & _ & Hle).
  assert (Ht : (0 < totalTrades
                     (runCoveredCallBacktest cap ps strike premium quantity))%nat).
  { rewrite totalTrades_periods. apply periods_spec. lia. }
  revert Hle Ht. rewrite runCoveredCallBacktest_after.
  cbn [winRate totalTrades winningTrades]. apply of_nat_ratio.
Qed.

(** X2. On a path of more than 30 prices, whatever the prices are, the
    [winRate] of the report is a finite number between 0 and 100. *)
Theorem winRate_is_a_percentage
    (cap : number) (ps : list number) (strike premium quantity : number) :
  (30 < List.length ps)%nat ->
  exists q : Q,
    winRate (runCoveredCallBacktest cap ps strike premium quantity) = Fin q /\
    (0 <= q)%Q /\ (q <= 100)%Q.
Proof. apply winRate_percentage_of_length. Qed.

Lemma winRate_is_a_percentage_witness :
  (30 < List.length (flat_path 61))%nat /\
  exists q : Q,
    winRate (runCoveredCallBacktest (of_Z 8300000) (flat_path 61)
               (of_Z 110) (of_Z 5) (of_Z 1)) = Fin q /\
    (0 <= q)%Q /\ (q <= 100)%Q.
Proof.
  split; [simpl; lia|].
  apply (winRate_is_a_percentage (of_Z 8300000) (flat_path 61)
           (of_Z 110) (of_Z 5) (of_Z 1)).
  simpl; lia.
Defined.

(** ** The profit of a covered call is capped *)

Lemma tradePnL_at_capped
    (ps : list number) (strike premium quantity : number) (i : Z) :
  Forall (fun p => positive p = true) ps ->
  is_finite strike = true -> is_finite premium = true ->
  is_finite quantity = true ->
  (0 <= i < Z.of_nat (List.length ps) - 30)%Z ->
  tradePnL_at ps strike premium quantity i =
  capped_periodPnL ps strike premium quantity i.
Proof.
  intros Hpos Hs Hp Hq Hi.
  destruct (is_finite_Fin _ Hs) as (s & ->).
  destruct (is_finite_Fin _ Hp) as (p & ->).
  destruct (is_finite_Fin _ Hq) as (q & ->).
  destruct (exitPrice_in_range ps i Hpos Hi) as (v & Hv & Pv & Hx).
  destruct (entryPrice_in_range ps i Hpos Hi) as (w & Hw & Pw).
  destruct (positive_Fin v Pv) as (e & -> & _).
  destruct (positive_Fin w Pw) as (a & -> & _).
  unfold tradePnL_at, capped_periodPnL, stockPnL_of, optionPnL_of.
  pose proof Hw as Hw'. unfold entryPrice_at in Hw'.
  rewrite Hx, Hw, Hw', Hv.
  cbn [ToNumber]. unfold gt, min2. cbn [lt].
  destruct (Qltb s e); fin_ring.
Qed.

(** X3. On a path of positive prices, with a finite strike, premium and
    quantity, one trade is recorded for each of the [periods] periods, and
    in exact arithmetic the profit recorded for the period that starts at
    index [30 j] is [(min (exitPrice, strike) - entryPrice + premium)
    * quantity * 100]: what the exit price gains above the strike is lost
    on the call. *)
Theorem period_pnl_is_capped_at_strike
    (cap : number) (ps : list number) (strike premium quantity : number) :
  Forall (fun p => positive p = true) ps ->
  is_finite strike = true -> is_finite premium = true ->
  is_finite quantity = true ->
  let r := runCoveredCallBacktest cap ps strike premium quantity in
  List.length (trades r) = periods (List.length ps) /\
  map pnl (trades r) =
  map (fun j => capped_periodPnL ps strike premium quantity (30 * Z.of_nat j))
    (seq 0 (periods (List.length ps))).
Proof.
  intros Hpos Hs Hp Hq r. subst r. split; [apply trades_length|].
  rewrite runCoveredCallBacktest_after. cbn [trades]. rewrite pnl_after.
  apply map_ext_in. intros j Hj. apply in_seq in Hj.
  apply tradePnL_at_capped; try assumption.
  pose proof (proj1 (periods_spec (List.length ps) j)). lia.
Qed.

Lemma period_pnl_is_capped_at_strike_witness :
  Forall (fun p => positive p = true) (flat_path 61) /\
  is_finite (of_Z 90) = true /\ is_finite (of_Z 5) = true /\
  is_finite (of_Z 1) = true /\
  let r :=
    runCoveredCallBacktest (of_Z 8300000) (flat_path 61)
      (of_Z 90) (of_Z 5) (of_Z 1) in
  List.length (trades r) = 2%nat /\
  map pnl (trades r) =
  map (fun j =>
         capped_periodPnL (flat_path 61) (of_Z 90) (of_Z 5) (of_Z 1)
           (30 * Z.of_nat j))
    (seq 0 2).
Proof.
  split; [apply flat_path_positive|].
  do 3 (split; [reflexivity|]).
  apply (period_pnl_is_capped_at_strike (of_Z 8300000) (flat_path 61)
           (of_Z 90) (of_Z 5) (of_Z 1));
    [apply flat_path_positive | reflexivity ..].
Defined.

(** ** The prices that the backtest reads *)

Lemma backtest_body_sampled
    (ps ps' : list number) (strike premium quantity : number)
    (st : LoopState) (k : nat) :
  List.length ps = List.length ps' ->
  Forall (fun p => positive p = true) ps ->
  Forall (fun p => positive p = true) ps' ->
  l_i st = (30 * Z.of_nat k)%Z ->
  (k < periods (List.length ps))%nat ->
  nth_error ps (30 * k) = nth_error ps' (30 * k) ->
  nth_error ps (30 * k + 29) = nth_error ps' (30 * k + 29) ->
  backtest_body ps strike premium quantity st =
  backtest_body ps' strike premium quantity st.
Proof.
  intros Hlen Hpos Hpos' Hi Hk He Hx.
  assert (Hr : (0 <= 30 * Z.of_nat k < Z.of_nat (List.length ps) - 30)%Z).
  { pose proof (proj1 (periods_spec (List.length ps) k) Hk). lia. }
  destruct (exitPrice_in_range ps _ Hpos Hr) as (v & Hv & _ & Ev).
  assert (Hr' : (0 <= 30 * Z.of_nat k < Z.of_nat (List.length ps') - 30)%Z)
    by (rewrite <- Hlen; exact Hr).
  destruct (exitPrice_in_range ps' _ Hpos' Hr') as (v' & Hv' & _ & Ev').
  assert (Exit : exitPrice_at ps (30 * Z.of_nat k)
                 = exitPrice_at ps' (30 * Z.of_nat k)).
  { rewrite Ev, Ev', <- Hv, <- Hv'.
    replace (30 * Z.of_nat k + 29)%Z with (Z.of_nat (30 * k + 29)) by lia.
    now rewrite !elem_nth. }
  assert (Entry : entryPrice_at ps (30 * Z.of_nat k)
                  = entryPrice_at ps' (30 * Z.of_nat k)).
  { unfold entryPrice_at.
    replace (30 * Z.of_nat k)%Z with (Z.of_nat (30 * k)) by lia.
    now rewrite !elem_nth. }
  unfold backtest_body. rewrite Hi, Exit, Entry. reflexivity.
Qed.

(** X4. The backtest reads the prices at the indices [30 k] and
    [30 k + 29] of its periods and no other: two paths of positive prices of
    the same length that agree at these indices give the same report. *)
Theorem backtest_reads_entry_and_exit_prices_only
    (cap : number) (ps ps' : list number) (strike premium quantity : number) :
  List.length ps = List.length ps' ->
  Forall (fun p => positive p = true) ps ->
  Forall (fun p => positive p = true) ps' ->
  (forall k, (k < periods (List.length ps))%nat ->
     nth_error ps (30 * k) = nth_error ps' (30 * k) /\
     nth_error ps (30 * k + 29) = nth_error ps' (30 * k + 29)) ->
  runCoveredCallBacktest cap ps strike premium quantity =
  runCoveredCallBacktest cap ps' strike premium quantity.
Proof.
  intros Hlen Hpos Hpos' Hsame.
  assert (Hst : forall k, (k <= periods (List.length ps))%nat ->
            state_after ps strike premium quantity k =
            state_after ps' strike premium quantity k).
  { induction k as [|k IH]; intros Hk; [reflexivity|].
    rewrite !state_after_S, <- IH by lia.
    destruct (Hsame k) as (He & Hx); [lia|].
    apply (backtest_body_sampled ps ps' strike premium quantity _ k);
      try assumption; try lia; apply state_after_i. }
  rewrite !runCoveredCallBacktest_after, <- Hlen, <- Hst by lia.
  reflexivity.
Qed.

Lemma backtest_reads_entry_and_exit_prices_only_witness :
  List.length (flat_path 31) =
    List.length (of_Z 100 :: repeat (of_Z 7) 28 ++ [of_Z 100; of_Z 3]) /\
  runCoveredCallBacktest (of_Z 8300000) (flat_path 31)
    (of_Z 110) (of_Z 5) (of_Z 1) =
  runCoveredCallBacktest (of_Z 8300000)
    (of_Z 100 :: repeat (of_Z 7) 28 ++ [of_Z 100; of_Z 3])
    (of_Z 110) (of_Z 5) (of_Z 1).
Proof.
  split; [reflexivity|].
  apply (backtest_reads_entry_and_exit_prices_only (of_Z 8300000)
           (flat_path 31)
           (of_Z 100 :: repeat (of_Z 7) 28 ++ [of_Z 100; of_Z 3])).
  - reflexivity.
  - apply flat_path_positive.
  - repeat constructor.
  - intros k Hk. change (periods (List.length (flat_path 31))) with 1%nat in Hk.
    assert (k = 0)%nat as -> by lia. split; reflexivity.
Defined.

(** ** What a run of the generator produces and consumes *)

Lemma generate_after_returns (volatility startPrice : number) (s : rng)
    (k : nat) :
  g_returns (generate_after volatility startPrice s k) =
  map (step_of volatility s) (seq 0 k).
Proof.
  induction k as [|k IH]; [reflexivity|].
  rewrite generate_after_returns_S, seq_S, map_app, IH. reflexivity.
Qed.

(** X5. A run of the generator returns [max (days, 1)] prices (one for
    [days <= 1], the start price) and [days - 1] returns (none for
    [days <= 1]), and takes exactly as many draws from [Math.random] as it
    returns returns: the draw of rank [n] after the run is the draw of rank
    [n + days - 1] before it. *)
Theorem generator_sizes_and_draws
    (symbol : string) (days : Z) (startPrice volatility : number) (s : rng) :
  let res := generateMockPriceData symbol days startPrice volatility s in
  List.length (prices (fst res)) = Z.to_nat (Z.max days 1) /\
  List.length (returns (fst res)) = Z.to_nat (days - 1) /\
  nth_error (prices (fst res)) 0 = Some startPrice /\
  (forall n, snd res n = s (n + Z.to_nat (days - 1))%nat).
Proof.
  intros res. subst res. rewrite generateMockPriceData_after.
  cbn [fst snd prices returns]. repeat split.
  - rewrite generate_after_length. lia.
  - rewrite generate_after_returns, length_map, length_seq. reflexivity.
  - induction (Z.to_nat (days - 1)) as [|k IH]; [reflexivity|].
    rewrite generate_after_prices_S, nth_error_app1; [exact IH|].
    rewrite generate_after_length. lia.
  - intros n. apply generate_after_rng.
Qed.

(** X6. With a positive volatility and draws in [0, 1), the returns that
    the generator reports are the steps [(draw - 0.5) * volatility * 2] of
    the successive draws, each one within [-volatility, +volatility]. *)
Theorem returns_within_volatility
    (symbol : string) (days : Z) (startPrice volatility : number) (s : rng) :
  positive volatility = true ->
  (forall n, unit_draw (s n) = true) ->
  let rs :=
    returns (fst (generateMockPriceData symbol days startPrice volatility s)) in
  rs = map (step_of volatility s) (seq 0 (Z.to_nat (days - 1))) /\
  Forall (fun u => le (neg volatility) u = true /\ le u volatility = true) rs.
Proof.
  intros Hv Hd rs. subst rs. rewrite generateMockPriceData_after.
  cbn [fst returns]. rewrite generate_after_returns. split; [reflexivity|].
  apply Forall_forall. intros u Hu. apply in_map_iff in Hu.
  destruct Hu as (k & <- & _).
  destruct (step_of_range volatility s k Hv (Hd k)) as (_ & Hlo & Hhi).
  split; assumption.
Qed.

Lemma returns_within_volatility_witness :
  positive (dec 1 1) = true /\
  (forall n, unit_draw (sample_draws n) = true) /\
  let rs :=
    returns (fst (generateMockPriceData "RELIANCE" 3 (of_Z 100) (dec 1 1)
                    sample_draws)) in
  rs = [dec 5 2; neg (dec 5 2)] /\
  Forall (fun u => le (neg (dec 1 1)) u = true /\ le u (dec 1 1) = true) rs.
Proof.
  split; [reflexivity|]. split; [exact sample_draws_in_unit|].
  destruct (returns_within_volatility "RELIANCE" 3 (of_Z 100) (dec 1 1)
              sample_draws eq_refl sample_draws_in_unit) as (_ & H).
  split; [reflexivity | exact H].
Defined.

(** ** The run of a backtest *)

Lemma runBacktest_rng (Math_sqrt : number -> number)
    (si : StrategyInputs.t) (s : rng) (n : nat) :
  snd (runBacktest Math_sqrt si s) n = s (n + 364)%nat.
Proof.
  unfold runBacktest. rewrite generateMockPriceData_after.
  cbn [snd]. apply generate_after_rng.
Qed.

(** X7. For the strategy ["covered_call"], whatever the volatility, the
    host's square root and the draws are, the run stores a report of exactly
    12 trades, for the periods that start on the days 1, 31, ..., 331 of the
    365 generated, and its win rate is a number between 0 and 100. *)
Theorem runBacktest_covered_call_has_twelve_trades
    (Math_sqrt : number -> number) (si : StrategyInputs.t) (s : rng) :
  StrategyInputs.strategy si = "covered_call"%string ->
  exists r,
    fst (runBacktest Math_sqrt si s) = Report r /\
    List.length (trades r) = 12%nat /\ totalTrades r = 12%nat /\
    map date (trades r) =
      [1; 31; 61; 91; 121; 151; 181; 211; 241; 271; 301; 331]%Z /\
    exists q : Q, winRate r = Fin q /\ (0 <= q)%Q /\ (q <= 100)%Q.
Proof.
  intros Hs. unfold runBacktest. rewrite generateMockPriceData_after.
  rewrite Hs. cbn [fst String.eqb Ascii.eqb Bool.eqb prices].
  set (ps := g_prices _).
  assert (Hlen : List.length ps = 365%nat).
  { subst ps. rewrite generate_after_length. reflexivity. }
  exists (runCoveredCallBacktest (StrategyInputs.initialCapital si) ps
            (of_Z 12865) (dec 2905 1) (of_Z 10)).
  split; [reflexivity|].
  assert (Hper : periods (List.length ps) = 12%nat) by (now rewrite Hlen).
  split; [|split; [|split]].
  - now rewrite trades_length.
  - now rewrite totalTrades_periods.
  - rewrite runCoveredCallBacktest_after. cbn [trades].
    rewrite date_after, Hper. reflexivity.
  - apply winRate_percentage_of_length. rewrite Hlen. lia.
Qed.

Lemma runBacktest_covered_call_has_twelve_trades_witness :
  exists r,
    fst (runBacktest sample_sqrt
           {| StrategyInputs.strategy := "covered_call";
              StrategyInputs.startDate := "2023-01-01";
              StrategyInputs.endDate := "2023-12-31";
              StrategyInputs.initialCapital := of_Z 8300000;
              StrategyInputs.stockSymbol := "RELIANCE";
              StrategyInputs.volatility := dec 25 2;
              StrategyInputs.riskFreeRate := dec 5 2 |}
           sample_draws) = Report r /\
    List.length (trades r) = 12%nat.
Proof.
  destruct (runBacktest_covered_call_has_twelve_trades sample_sqrt
              {| StrategyInputs.strategy := "covered_call";
                 StrategyInputs.startDate := "2023-01-01";
                 StrategyInputs.endDate := "2023-12-31";
                 StrategyInputs.initialCapital := of_Z 8300000;
                 StrategyInputs.stockSymbol := "RELIANCE";
                 StrategyInputs.volatility := dec 25 2;
                 StrategyInputs.riskFreeRate := dec 5 2 |}
              sample_draws eq_refl) as (r & Hr & Hlen & _).
  exists r. split; assumption.
Defined.

(** X8. For any other strategy the run stores the message that the strategy
    is not implemented; the 365 prices have been generated all the same, so
    364 draws of [Math.random] are gone, as for a covered call. *)
Theorem runBacktest_other_strategy
    (Math_sqrt : number -> number) (si : StrategyInputs.t) (s : rng) :
  StrategyInputs.strategy si <> "covered_call"%string ->
  fst (runBacktest Math_sqrt si s) = Message "Strategy not implemented yet" /\
  forall n, snd (runBacktest Math_sqrt si s) n = s (n + 364)%nat.
Proof.
  intros Hs. split; [|intros n; apply runBacktest_rng].
  unfold runBacktest. rewrite generateMockPriceData_after.
  apply String.eqb_neq in Hs. rewrite Hs. reflexivity.
Qed.

Lemma runBacktest_other_strategy_witness :
  fst (runBacktest sample_sqrt
         {| StrategyInputs.strategy := "iron_condor";
            StrategyInputs.startDate := "2023-01-01";
            StrategyInputs.endDate := "2023-12-31";
            StrategyInputs.initialCapital := of_Z 8300000;
            StrategyInputs.stockSymbol := "RELIANCE";
            StrategyInputs.volatility := dec 25 2;
            StrategyInputs.riskFreeRate := dec 5 2 |}
         sample_draws) = Message "Strategy not implemented yet".
Proof.
  apply (runBacktest_other_strategy sample_sqrt
           {| StrategyInputs.strategy := "iron_condor";
              StrategyInputs.startDate := "2023-01-01";
              StrategyInputs.endDate := "2023-12-31";
              StrategyInputs.initialCapital := of_Z 8300000;
              StrategyInputs.stockSymbol := "RELIANCE";
              StrategyInputs.volatility := dec 25 2;
              StrategyInputs.riskFreeRate := dec 5 2 |}
           sample_draws).
  discriminate.
Defined.

(** ** Further properties of the pricing *)

Lemma timeToExpiry_nonpositive (t : Q) :
  (t <= 0)%Q -> le (div (Fin t) (of_Z 365)) (of_Z 0) = true.
Proof.
  intros Ht. unfold of_Z. cbn [div]. 
  change (Qeq_bool (inject_Z 365) 0) with false. cbv iota.
  unfold fin. cbn [le]. apply Qle_bool_iff. rewrite Qred_correct.
  change (inject_Z 0) with 0%Q. change (inject_Z 365) with 365%Q.
  assert (H : (t / 365 == t * (1 # 365))%Q) by (unfold Qdiv; reflexivity).
  rewrite H. lra.
Qed.

Lemma timeToExpiry_positive (t : Q) :
  (0 < t)%Q -> le (div (Fin t) (of_Z 365)) (of_Z 0) = false.
Proof.
  intros Ht. unfold of_Z. cbn [div].
  change (Qeq_bool (inject_Z 365) 0) with false. cbv iota.
  unfold fin. cbn [le]. apply not_true_iff_false. intros H.
  apply Qle_bool_iff in H. rewrite Qred_correct in H.
  change (inject_Z 0) with 0%Q in H. change (inject_Z 365) with 365%Q in H.
  assert (E : (t / 365 == t * (1 # 365))%Q) by (unfold Qdiv; reflexivity).
  rewrite E in H. lra.
Qed.

Section PricingFacts.

Variables Math_sqrt Math_exp Math_log : number -> number.
Variable Math_PI : number.

#[local] Abbreviation price :=
  (calculateBlackScholes Math_sqrt Math_exp Math_log Math_PI).

(** X9. A negative number of days to expiry is priced as the expiry itself:
    the result is the one for zero days, whatever the other inputs. *)
Theorem negative_days_priced_as_expiry (S K r sigma : number) (t : Q) :
  (t <= 0)%Q ->
  price S K (Fin t) r sigma = price S K (of_Z 0) r sigma.
Proof.
  intros Ht. unfold calculateBlackScholes.
  rewrite (timeToExpiry_nonpositive t Ht).
  change (le (div (of_Z 0) (of_Z 365)) (of_Z 0)) with true. reflexivity.
Qed.

(** X10. At or after expiry the Greeks object has the keys [delta], [gamma],
    [theta], [vega] and [rho] only: [delta_call], [delta_put], [theta_call],
    [theta_put], [rho_call] and [rho_put], which the pricing view reads, are
    undefined. *)
Theorem expiry_greeks_lack_call_put_keys (S K r sigma : number) (t : Q) :
  (t <= 0)%Q ->
  let g := greeks (price S K (Fin t) r sigma) in
  map fst g = ["delta"; "gamma"; "theta"; "vega"; "rho"]%string /\
  prop "delta_call" g = None /\ prop "delta_put" g = None /\
  prop "theta_call" g = None /\ prop "theta_put" g = None /\
  prop "rho_call" g = None /\ prop "rho_put" g = None.
Proof.
  intros Ht g. subst g. unfold calculateBlackScholes.
  rewrite (timeToExpiry_nonpositive t Ht). repeat split.
Qed.

(** X11. With at least one day to expiry the Greeks object has the eight
    keys [delta_call],
    [delta_put], [gamma], [theta_call], [theta_put], [vega], [rho_call] and
    [rho_put], and none of the keys [delta], [theta] and [rho] of the expiry
    case. *)
Theorem live_greeks_have_call_put_keys (S K r sigma : number) (t : Q) :
  (1 <= t)%Q ->
  let g := greeks (price S K (Fin t) r sigma) in
  map fst g =
    ["delta_call"; "delta_put"; "gamma"; "theta_call"; "theta_put"; "vega";
     "rho_call"; "rho_put"]%string /\
  prop "delta" g = None /\ prop "theta" g = None /\ prop "rho" g = None.
Proof.
  intros Ht g. subst g. unfold calculateBlackScholes.
  rewrite (timeToExpiry_positive t) by lra. repeat split.
Qed.

Lemma max2_zero_not_negative (x : number) :
  is_nan (max2 x (of_Z 0)) || le (of_Z 0) (max2 x (of_Z 0)) = true.
Proof.
  destruct x as [a| | |]; try reflexivity.
  unfold max2, of_Z. cbn [lt]. change (inject_Z 0) with 0%Q.
  destruct (Qltb a 0) eqn:E; [reflexivity|].
  cbn [le is_nan orb]. apply Qle_bool_iff. now apply Qltb_ge.
Qed.

(** X12. Whatever the inputs (NaN and infinities included), on both
    branches, each price returned is NaN or at least zero: the pricing never
    returns a negative price. *)
Theorem prices_never_negative (S K T r sigma : number) :
  is_nan (callPrice (price S K T r sigma))
  || le (of_Z 0) (callPrice (price S K T r sigma)) = true /\
  is_nan (putPrice (price S K T r sigma))
  || le (of_Z 0) (putPrice (price S K T r sigma)) = true.
Proof.
  unfold calculateBlackScholes.
  destruct (le (div T (of_Z 365)) (of_Z 0)); cbn [callPrice putPrice];
    split; apply max2_zero_not_negative.
Qed.

End PricingFacts.

Lemma negative_days_priced_as_expiry_witness :
  (- (7) <= 0)%Q /\
  calculateBlackScholes sample_sqrt sample_exp sample_log (of_Z 3)
    (of_Z 100) (of_Z 90) (Fin (- (7))) (dec 5 2) (dec 2 1) =
  calculateBlackScholes sample_sqrt sample_exp sample_log (of_Z 3)
    (of_Z 100) (of_Z 90) (of_Z 0) (dec 5 2) (dec 2 1).
Proof.
  split; [discriminate|].
  apply (negative_days_priced_as_expiry sample_sqrt sample_exp sample_log
           (of_Z 3) (of_Z 100) (of_Z 90) (dec 5 2) (dec 2 1) (- (7))).
  discriminate.
Defined.

Lemma expiry_greeks_lack_call_put_keys_witness :
  (0 <= 0)%Q /\
  prop "delta_call"
    (greeks (calculateBlackScholes sample_sqrt sample_exp sample_log (of_Z 3)
               (of_Z 100) (of_Z 90) (Fin 0) (dec 5 2) (dec 2 1))) = None.
Proof.
  split; [discriminate|].
  apply (expiry_greeks_lack_call_put_keys sample_sqrt sample_exp sample_log
           (of_Z 3) (of_Z 100) (of_Z 90) (dec 5 2) (dec 2 1) 0).
  discriminate.
Defined.

Lemma live_greeks_have_call_put_keys_witness :
  (1 <= 30)%Q /\
  prop "delta"
    (greeks (calculateBlackScholes sample_sqrt sample_exp sample_log (of_Z 3)
               (of_Z 100) (of_Z 90) (Fin 30) (dec 5 2) (dec 2 1))) = None.
Proof.
  split; [discriminate|].
  apply (live_greeks_have_call_put_keys sample_sqrt sample_exp sample_log
           (of_Z 3) (of_Z 100) (of_Z 90) (dec 5 2) (dec 2 1) 30).
  discriminate.
Defined.

(** ** Parity of the prices and symmetry of [normalCDF] in exact arithmetic *)

Lemma Pos_of_nat_Z (n : nat) :
  n <> 0%nat -> Pos.of_nat n = Z.to_pos (Z.of_nat n).
Proof.
  destruct n as [|n]; [congruence|]. intros _.
  rewrite <- Pos.of_nat_succ. rewrite Nat2Z.inj_succ.
  rewrite <- Zpos_P_of_succ_nat. reflexivity.
Qed.

(** A decimal literal, with its power of ten computed in binary. *)
Lemma dec_value (m : Z) (e : nat) :
  dec m e = fin (m # Z.to_pos (10 ^ Z.of_nat e)).
Proof.
  unfold dec. rewrite Pos_of_nat_Z by (apply Nat.pow_nonzero; discriminate).
  rewrite Nat2Z.inj_pow. reflexivity.
Qed.

Lemma mul_finite_inv (x y : number) :
  is_finite (mul x y) = true -> is_finite x = true /\ is_finite y = true.
Proof.
  destruct x as [a| | |], y as [b| | |]; cbn [mul is_finite];
    try discriminate; try (split; reflexivity);
    unfold inf_times;
    repeat match goal with |- context [if ?c then _ else _] => destruct c end;
    discriminate.
Qed.

Lemma add_finite_inv (x y : number) :
  is_finite (add x y) = true -> is_finite x = true /\ is_finite y = true.
Proof.
  destruct x, y; cbn [add is_finite]; try discriminate; split; reflexivity.
Qed.

Lemma sub_finite_inv (x y : number) :
  is_finite (sub x y) = true -> is_finite x = true /\ is_finite y = true.
Proof.
  destruct x, y; cbn [sub is_finite]; try discriminate; split; reflexivity.
Qed.

Lemma max2_zero_positive (x : number) :
  positive (max2 x (of_Z 0)) = true ->
  max2 x (of_Z 0) = x /\ is_finite x = true.
Proof.
  destruct x as [a| | |]; try discriminate.
  unfold max2, of_Z. cbn [lt]. destruct (Qltb a (inject_Z 0)).
  - discriminate.
  - intros _. split; reflexivity.
Qed.

Lemma floored_prices_parity (S K E Nd1 Nd2 : number) :
  is_finite S = true -> is_finite K = true ->
  positive
    (max2 (sub (mul S Nd1) (mul (mul K E) Nd2)) (of_Z 0)) = true ->
  positive
    (max2 (sub (mul (mul K E) (sub (of_Z 1) Nd2))
              (mul S (sub (of_Z 1) Nd1))) (of_Z 0)) = true ->
  sub (max2 (sub (mul S Nd1) (mul (mul K E) Nd2)) (of_Z 0))
      (max2 (sub (mul (mul K E) (sub (of_Z 1) Nd2))
                (mul S (sub (of_Z 1) Nd1))) (of_Z 0))
  = sub S (mul K E).
Proof.
  intros HS HK Hc Hp.
  destruct (max2_zero_positive _ Hc) as (-> & Fc).
  destruct (max2_zero_positive _ Hp) as (-> & _).
  apply sub_finite_inv in Fc. destruct Fc as (F1 & F2).
  apply mul_finite_inv in F1. destruct F1 as (_ & FN1).
  apply mul_finite_inv in F2. destruct F2 as (FKE & FN2).
  apply mul_finite_inv in FKE. destruct FKE as (_ & FE).
  destruct (is_finite_Fin _ HS) as (s & ->).
  destruct (is_finite_Fin _ HK) as (k & ->).
  destruct (is_finite_Fin _ FE) as (e & ->).
  destruct (is_finite_Fin _ FN1) as (n1 & ->).
  destruct (is_finite_Fin _ FN2) as (n2 & ->).
  apply unfloored_prices_parity.
Qed.

(** X13. Before expiry, for a finite spot and strike, when both prices
    returned are above zero (so that neither floor has acted), their
    difference is exactly [S - K * exp (- r T)] in exact arithmetic, whatever
    values the approximation of the normal distribution takes. *)
Theorem positive_prices_satisfy_parity
    (Math_sqrt Math_exp Math_log : number -> number) (Math_PI : number)
    (S K r sigma : number) (t : Q) :
  let res :=
    calculateBlackScholes Math_sqrt Math_exp Math_log Math_PI
      S K (Fin t) r sigma in
  (0 < t)%Q ->
  is_finite S = true -> is_finite K = true ->
  positive (callPrice res) = true -> positive (putPrice res) = true ->
  sub (callPrice res) (putPrice res) =
  sub S (mul K (Math_exp (mul (neg r) (div (Fin t) (of_Z 365))))).
Proof.
  intros res Ht HS HK. subst res. unfold calculateBlackScholes.
  rewrite (timeToExpiry_positive t Ht). cbn [callPrice putPrice].
  apply floored_prices_parity; assumption.
Qed.

Lemma positive_prices_satisfy_parity_witness :
  let res :=
    calculateBlackScholes sample_sqrt sample_exp sample_log (of_Z 3)
      (of_Z 100) (of_Z 90) (Fin 365) (dec 5 2) (dec 2 1) in
  (0 < 365)%Q /\
  positive (callPrice res) = true /\ positive (putPrice res) = true /\
  sub (callPrice res) (putPrice res) =
  sub (of_Z 100)
    (mul (of_Z 90)
       (sample_exp (mul (neg (dec 5 2)) (div (Fin 365) (of_Z 365))))).
Proof.
  intros res.
  assert (Hc : positive (callPrice res) = true).
  { subst res. unfold calculateBlackScholes, normalCDF.
    rewrite !dec_value. vm_compute. reflexivity. }
  assert (Hp : positive (putPrice res) = true).
  { subst res. unfold calculateBlackScholes, normalCDF.
    rewrite !dec_value. vm_compute. reflexivity. }
  split; [reflexivity|]. split; [exact Hc|]. split; [exact Hp|].
  exact (positive_prices_satisfy_parity sample_sqrt sample_exp sample_log
           (of_Z 3) (of_Z 100) (of_Z 90) (dec 5 2) (dec 2 1) 365
           eq_refl eq_refl eq_refl Hc Hp).
Defined.

Lemma Math_abs_neg (q : Q) : Math_abs (neg (Fin q)) = Math_abs (Fin q).
Proof.
  cbn [neg]. unfold fin. cbn [Math_abs]. apply fin_eq.
  rewrite Qred_correct. apply Qabs_opp.
Qed.

Lemma half_sum (y : Q) :
  add (mul (dec 5 1) (add (of_Z 1) (mul (of_Z (-1)) (Fin y))))
      (mul (dec 5 1) (add (of_Z 1) (mul (of_Z 1) (Fin y))))
  = of_Z 1 /\
  add (mul (dec 5 1) (add (of_Z 1) (mul (of_Z 1) (Fin y))))
      (mul (dec 5 1) (add (of_Z 1) (mul (of_Z (-1)) (Fin y))))
  = of_Z 1.
Proof.
  change (dec 5 1) with (Fin (1 # 2)).
  change (of_Z (-1)) with (Fin (-1)). change (of_Z 1) with (Fin 1).
  split; (transitivity (fin 1); [fin_ring | reflexivity]).
Qed.

(** X14. In exact arithmetic the approximation of the normal distribution is
    symmetric: for a finite [x] other than zero at which [normalCDF] returns
    a finite number, [normalCDF (x) + normalCDF (- x) = 1], whatever values
    the host's square root and exponential return. *)
Theorem normalCDF_symmetric
    (Math_sqrt Math_exp : number -> number) (q : Q) :
  ~ (q == 0)%Q ->
  is_finite (normalCDF Math_sqrt Math_exp (Fin q)) = true ->
  add (normalCDF Math_sqrt Math_exp (Fin q))
      (normalCDF Math_sqrt Math_exp (neg (Fin q))) = of_Z 1.
Proof.
  intros Hq. unfold normalCDF. cbv zeta.
  generalize (dec 254829592 9) (dec (-284496736) 9) (dec 1421413741 9)
    (dec (-1453152027) 9) (dec 1061405429 9) (dec 3275911 7).
  intros a1 a2 a3 a4 a5 p.
  rewrite Math_abs_neg.
  set (x' := div (Math_abs (Fin q)) (Math_sqrt (of_Z 2))).
  set (t := div (of_Z 1) (add (of_Z 1) (mul p x'))).
  set (y := sub (of_Z 1) _).
  intros Hfin.
  assert (Fy : is_finite y = true).
  { apply mul_finite_inv in Hfin. destruct Hfin as (_ & H).
    apply add_finite_inv in H. destruct H as (_ & H).
    apply mul_finite_inv in H. now destruct H. }
  destruct (is_finite_Fin _ Fy) as (yq & ->).
  assert (S1 : lt (Fin q) (of_Z 0) = Qltb q 0) by reflexivity.
  assert (S2 : lt (neg (Fin q)) (of_Z 0) = Qltb (Qred (- q)) 0) by reflexivity.
  rewrite S1, S2. clear S1 S2 Hfin.
  pose proof (Qred_correct (- q)) as Hred.
  destruct (Qltb q 0) eqn:E1, (Qltb (Qred (- q)) 0) eqn:E2.
  - apply Qltb_lt in E1, E2. lra.
  - exact (proj1 (half_sum yq)).
  - exact (proj2 (half_sum yq)).
  - apply Qltb_ge in E1, E2. exfalso. apply Hq. lra.
Qed.

Lemma normalCDF_symmetric_witness :
  ~ (2 == 0)%Q /\
  is_finite (normalCDF sample_sqrt sample_exp (Fin 2)) = true /\
  add (normalCDF sample_sqrt sample_exp (Fin 2))
      (normalCDF sample_sqrt sample_exp (neg (Fin 2))) = of_Z 1.
Proof.
  assert (Hq : ~ (2 == 0)%Q) by discriminate.
  assert (Hf : is_finite (normalCDF sample_sqrt sample_exp (Fin 2)) = true).
  { unfold normalCDF. rewrite !dec_value. vm_compute. reflexivity. }
  split; [exact Hq|]. split; [exact Hf|].
  exact (normalCDF_symmetric sample_sqrt sample_exp 2 Hq Hf).
Defined.

(** ** The metrics of the portfolio *)

Section PortfolioFacts.

Variables Math_sqrt Math_exp Math_log : number -> number.
Variable Math_PI : number.

#[local] Abbreviation step :=
  (metrics_step Math_sqrt Math_exp Math_log Math_PI).
#[local] Abbreviation metrics :=
  (calculatePortfolioMetrics Math_sqrt Math_exp Math_log Math_PI).

Lemma totals_value_is_pnl_plus_premium (ps : list Position.t) :
  Forall (fun p => finite_position p = true) ps ->
  forall (acc : Totals.t) (paid : number) (v g c : Q),
    Totals.totalValue acc = Fin v -> Totals.totalPnL acc = Fin g ->
    paid = Fin c -> Qred v = v -> (v == g + c)%Q ->
    exists v' g' c',
      Totals.totalValue (fold_left step ps acc) = Fin v' /\
      Totals.totalPnL (fold_left step ps acc) = Fin g' /\
      fold_left
        (fun sum p =>
           add sum (mul (mul (Position.premium p) (Position.quantity p))
                      (of_Z 100)))
        ps paid = Fin c' /\
      Qred v' = v' /\ (v' == g' + c')%Q.
Proof.
  induction 1 as [|p ps Hp _ IH]; intros acc paid v g c Hv Hg Hc Hcan Hrel.
  - exists v, g, c. repeat split; assumption.
  - unfold finite_position in Hp.
    apply andb_true_iff in Hp. destruct Hp as (Hp & Fq).
    apply andb_true_iff in Hp. destruct Hp as (Fc & Fp).
    destruct (is_finite_Fin _ Fc) as (cur & Ecur).
    destruct (is_finite_Fin _ Fp) as (pre & Epre).
    destruct (is_finite_Fin _ Fq) as (qty & Eqty).
    cbn [fold_left].
    eapply IH.
    + cbn [metrics_step Totals.totalValue]. rewrite Hv, Ecur, Eqty.
      cbn [mul add of_Z]. unfold fin. reflexivity.
    + cbn [metrics_step Totals.totalPnL]. rewrite Hg, Ecur, Epre, Eqty.
      cbn [mul add sub of_Z]. unfold fin. reflexivity.
    + rewrite Hc, Epre, Eqty. cbn [mul add of_Z]. unfold fin. reflexivity.
    + apply Qred_complete, Qred_correct.
    + rewrite !Qred_correct, Hrel. ring.
Qed.

(** X15. For positions whose current price, premium and quantity are
    finite, the total value of the portfolio is its total profit plus the
    premium paid, the sum that the total return is a percentage of; and
    [positionCount] is the number of positions. *)
Theorem portfolio_value_is_pnl_plus_premium (ps : list Position.t) :
  Forall (fun p => finite_position p = true) ps ->
  let m := metrics ps in
  add (PortfolioMetrics.totalPnL m) (premium_paid ps)
    = PortfolioMetrics.totalValue m /\
  PortfolioMetrics.totalReturn m =
    mul (div (PortfolioMetrics.totalPnL m) (premium_paid ps)) (of_Z 100) /\
  PortfolioMetrics.positionCount m = List.length ps.
Proof.
  intros Hfin m. subst m. unfold calculatePortfolioMetrics, premium_paid.
  cbn [PortfolioMetrics.totalPnL PortfolioMetrics.totalValue
       PortfolioMetrics.totalReturn PortfolioMetrics.positionCount].
  split; [|split; reflexivity].
  destruct (totals_value_is_pnl_plus_premium ps Hfin totals_init (of_Z 0)
              0 0 0 eq_refl eq_refl eq_refl eq_refl)
    as (v & g & c & -> & -> & -> & Hcan & Hrel); [reflexivity|].
  cbn [add]. unfold fin. f_equal. rewrite <- Hcan.
  apply Qred_complete. now symmetry.
Qed.

Lemma fold_step_retyped (f : Position.t -> string) (ps : list Position.t) :
  forall acc acc' : Totals.t,
    Totals.totalValue acc = Totals.totalValue acc' ->
    Totals.totalPnL acc = Totals.totalPnL acc' ->
    Totals.totalGamma acc = Totals.totalGamma acc' ->
    Totals.totalVega acc = Totals.totalVega acc' ->
    let r := fold_left step ps acc in
    let r' := fold_left step (map (fun p => with_type (f p) p) ps) acc' in
    Totals.totalValue r = Totals.totalValue r' /\
    Totals.totalPnL r = Totals.totalPnL r' /\
    Totals.totalGamma r = Totals.totalGamma r' /\
    Totals.totalVega r = Totals.totalVega r'.
Proof.
  induction ps as [|p ps IH]; intros acc acc' Hv Hg Hga Hve.
  - repeat split; assumption.
  - cbn [map fold_left]. apply IH;
      cbn [metrics_step with_type Totals.totalValue Totals.totalPnL
           Totals.totalGamma Totals.totalVega Position.current
           Position.quantity Position.premium Position.strike];
      congruence.
Qed.

Lemma premium_paid_retyped (f : Position.t -> string) (ps : list Position.t) :
  premium_paid (map (fun p => with_type (f p) p) ps) = premium_paid ps.
Proof.
  unfold premium_paid. generalize (of_Z 0 : number).
  induction ps as [|p ps IH]; intros acc; [reflexivity|].
  cbn [map fold_left]. apply IH.
Qed.

(** X16. The total value, the total profit, the total return, the gamma and
    the vega of the portfolio do not depend on the types of the positions:
    changing any of them between ["Call"] and anything else leaves these
    five figures, and the count, as they are. *)
Theorem metrics_independent_of_types
    (f : Position.t -> string) (ps : list Position.t) :
  let m := metrics ps in
  let m' := metrics (map (fun p => with_type (f p) p) ps) in
  PortfolioMetrics.totalValue m' = PortfolioMetrics.totalValue m /\
  PortfolioMetrics.totalPnL m' = PortfolioMetrics.totalPnL m /\
  PortfolioMetrics.totalReturn m' = PortfolioMetrics.totalReturn m /\
  PortfolioGreeks.gamma (PortfolioMetrics.portfolioGreeks m') =
    PortfolioGreeks.gamma (PortfolioMetrics.portfolioGreeks m) /\
  PortfolioGreeks.vega (PortfolioMetrics.portfolioGreeks m') =
    PortfolioGreeks.vega (PortfolioMetrics.portfolioGreeks m) /\
  PortfolioMetrics.positionCount m' = PortfolioMetrics.positionCount m.
Proof.
  intros m m'. subst m m'. unfold calculatePortfolioMetrics.
  cbn [PortfolioMetrics.totalValue PortfolioMetrics.totalPnL
       PortfolioMetrics.totalReturn PortfolioMetrics.portfolioGreeks
       PortfolioMetrics.positionCount PortfolioGreeks.gamma
       PortfolioGreeks.vega].
  rewrite premium_paid_retyped, length_map.
  destruct (fold_step_retyped f ps totals_init totals_init
              eq_refl eq_refl eq_refl eq_refl) as (Hv & Hg & Hga & Hve).
  rewrite <- Hv, <- Hg, <- Hga, <- Hve. repeat split.
Qed.

(** X17. When a removal leaves no position (every position had the id
    removed), the effect that follows does not compute the metrics again:
    the metrics stay those of the portfolio before the removal. *)
Theorem metrics_stale_after_last_removal
    (ps : list Position.t) (id : number)
    (portfolioMetrics : option PortfolioMetrics.t) :
  Forall (fun p => strict_eq (Position.id p) id = true) ps ->
  removePosition ps id = [] /\
  metrics_effect Math_sqrt Math_exp Math_log Math_PI
    (removePosition ps id) portfolioMetrics = portfolioMetrics.
Proof.
  intros H.
  assert (E : removePosition ps id = []).
  { unfold removePosition. induction H as [|p ps Hp _ IH]; [reflexivity|].
    cbn [filter]. now rewrite Hp. }
  split; [exact E|]. rewrite E. reflexivity.
Qed.

End PortfolioFacts.

Lemma portfolio_value_is_pnl_plus_premium_witness :
  Forall (fun p => finite_position p = true) initial_positions /\
  let m :=
    calculatePortfolioMetrics sample_sqrt sample_exp sample_log (of_Z 3)
      initial_positions in
  add (PortfolioMetrics.totalPnL m) (premium_paid initial_positions)
    = PortfolioMetrics.totalValue m /\
  PortfolioMetrics.positionCount m = 3%nat.
Proof.
  assert (H : Forall (fun p => finite_position p = true) initial_positions)
    by (repeat constructor).
  split; [exact H|].
  destruct (portfolio_value_is_pnl_plus_premium sample_sqrt sample_exp
              sample_log (of_Z 3) initial_positions H) as (Hv & _ & Hc).
  split; [exact Hv | exact Hc].
Defined.

Lemma metrics_stale_after_last_removal_witness :
  let ps := firstn 1 initial_positions in
  let m :=
    Some (calculatePortfolioMetrics sample_sqrt sample_exp sample_log
            (of_Z 3) ps) in
  Forall (fun p => strict_eq (Position.id p) (of_Z 1) = true) ps /\
  metrics_effect sample_sqrt sample_exp sample_log (of_Z 3)
    (removePosition ps (of_Z 1)) m = m.
Proof.
  intros ps m.
  assert (H : Forall (fun p => strict_eq (Position.id p) (of_Z 1) = true) ps)
    by (repeat constructor).
  split; [exact H|].
  apply (metrics_stale_after_last_removal sample_sqrt sample_exp sample_log
           (of_Z 3) ps (of_Z 1) m H).
Defined.

(** ** Adding and removing positions *)

Section AddRemove.

Variables parseFloat parseInt : string -> number.
Variable Date_now : number.

#[local] Abbreviation add_position := (addPosition parseFloat parseInt Date_now).

(** X18. [addPosition] acts exactly when the symbol, the strike, the
    quantity and the premium of the form are not empty (the type and the
    expiry are not looked at, and no text is checked to be a number): it then
    appends one position to the list, resets the form and takes one draw of
    [Math.random]; otherwise the positions, the form and [Math.random] stay
    as they are. *)
Theorem addPosition_needs_four_fields
    (ps : list Position.t) (form : NewPosition.t) (s : rng) :
  let filled :=
    string_truthy (NewPosition.symbol form)
    && string_truthy (NewPosition.strike form)
    && string_truthy (NewPosition.quantity form)
    && string_truthy (NewPosition.premium form) in
  let res := add_position ps form s in
  if filled
  then List.length (fst (fst res)) = S (List.length ps) /\
       firstn (List.length ps) (fst (fst res)) = ps /\
       snd (fst res) = empty_form /\
       (forall n, snd res n = s (S n))
  else res = (ps, form, s).
Proof.
  intros filled res. subst filled res. unfold addPosition.
  destruct (string_truthy (NewPosition.symbol form)
            && string_truthy (NewPosition.strike form)
            && string_truthy (NewPosition.quantity form)
            && string_truthy (NewPosition.premium form)); [|reflexivity].
  cbn [Math_random fst snd]. repeat split.
  - rewrite length_app. simpl. lia.
  - rewrite firstn_app, Nat.sub_diag, firstn_all. simpl. apply app_nil_r.
Qed.

(** X19. When the form is filled, its premium parses to a positive finite
    number [p] and the draw is in [0, 1), the position added has the
    premium [p] and a current price [c] with [0.9 p <= c < 1.3 p]. *)
Theorem added_position_current_price
    (ps : list Position.t) (form : NewPosition.t) (s : rng) (p : Q) :
  string_truthy (NewPosition.symbol form)
  && string_truthy (NewPosition.strike form)
  && string_truthy (NewPosition.quantity form)
  && string_truthy (NewPosition.premium form) = true ->
  parseFloat (NewPosition.premium form) = Fin p -> (0 < p)%Q ->
  unit_draw (s 0%nat) = true ->
  exists (new : Position.t) (c : Q),
    fst (fst (add_position ps form s)) = ps ++ [new] /\
    Position.id new = Date_now /\
    Position.premium new = Fin p /\
    Position.current new = Fin c /\
    ((9 # 10) * p <= c)%Q /\ (c < (13 # 10) * p)%Q.
Proof.
  intros Hf Hp Hpos Hd. unfold addPosition. rewrite Hf.
  cbn [Math_random fst]. rewrite Hp.
  destruct (s 0%nat) as [d| | |]; try discriminate.
  cbn [unit_draw] in Hd. apply andb_true_iff in Hd. destruct Hd as (H0 & H1).
  apply Qle_bool_iff in H0. apply Qltb_lt in H1.
  change (dec 9 1) with (Fin (9 # 10)). change (dec 4 1) with (Fin (2 # 5)).
  cbn [mul add]. unfold fin.
  eexists. eexists. split; [reflexivity|].
  cbn [Position.id Position.premium Position.current].
  repeat split; rewrite !Qred_correct; nra.
Qed.

Lemma removePosition_app (ps qs : list Position.t) (id : number) :
  removePosition (ps ++ qs) id = removePosition ps id ++ removePosition qs id.
Proof. apply filter_app. Qed.

Lemma removePosition_fresh (ps : list Position.t) (id : number) :
  Forall (fun p => strict_eq (Position.id p) id = false) ps ->
  removePosition ps id = ps.
Proof.
  unfold removePosition. induction 1 as [|p ps Hp _ IH]; [reflexivity|].
  cbn [filter]. rewrite Hp. cbn [negb]. now rewrite IH.
Qed.

(** X20. Adding a position and removing it again gives the positions back:
    when the form is filled, [Date.now()] is not NaN and no position
    already has its value as id, [removePosition (Date.now())] after
    [addPosition] returns the positions from before. *)
Theorem remove_after_add_restores_positions
    (ps : list Position.t) (form : NewPosition.t) (s : rng) :
  string_truthy (NewPosition.symbol form)
  && string_truthy (NewPosition.strike form)
  && string_truthy (NewPosition.quantity form)
  && string_truthy (NewPosition.premium form) = true ->
  strict_eq Date_now Date_now = true ->
  Forall (fun p => strict_eq (Position.id p) Date_now = false) ps ->
  removePosition (fst (fst (add_position ps form s))) Date_now = ps.
Proof.
  intros Hf Hnow Hfresh. unfold addPosition. rewrite Hf.
  cbn [Math_random fst]. rewrite removePosition_app.
  rewrite (removePosition_fresh ps Date_now Hfresh).
  unfold removePosition. cbn [filter Position.id]. rewrite Hnow.
  apply app_nil_r.
Qed.

End AddRemove.

Lemma removePosition_length (ps : list Position.t) (id : number) :
  List.length ps =
  (List.length (removePosition ps id)
   + List.length (filter (fun p => strict_eq (Position.id p) id) ps))%nat.
Proof.
  unfold removePosition. induction ps as [|p ps IH]; [reflexivity|].
  cbn [filter]. destruct (strict_eq (Position.id p) id);
    cbn [negb List.length]; lia.
Qed.

(** X21. After [removePosition (id)] no position has the id [id], the
    positions left are those of before with another id, in their order, and
    removing the same id again changes nothing. *)
Theorem removePosition_removes_every_match
    (ps : list Position.t) (id : number) :
  Forall (fun p => strict_eq (Position.id p) id = false)
    (removePosition ps id) /\
  (forall p, In p (removePosition ps id) <->
             In p ps /\ strict_eq (Position.id p) id = false) /\
  List.length ps =
    (List.length (removePosition ps id)
     + List.length (filter (fun p => strict_eq (Position.id p) id) ps))%nat /\
  removePosition (removePosition ps id) id = removePosition ps id.
Proof.
  assert (Hall : Forall (fun p => strict_eq (Position.id p) id = false)
                   (removePosition ps id)).
  { apply Forall_forall. intros p Hp. apply filter_In in Hp.
    now apply negb_true_iff. }
  split; [exact Hall|]. split; [|split].
  - intros p. unfold removePosition. rewrite filter_In, negb_true_iff.
    reflexivity.
  - apply removePosition_length.
  - now apply removePosition_fresh.
Qed.

Lemma added_position_current_price_witness :
  exists (new : Position.t) (c : Q),
    fst (fst (addPosition (fun _ => of_Z 200) (fun _ => of_Z 4) (of_Z 1700000000000)
                initial_positions
                sample_form
                sample_draws))
      = initial_positions ++ [new] /\
    Position.current new = Fin c /\
    ((9 # 10) * 200 <= c)%Q /\ (c < (13 # 10) * 200)%Q.
Proof.
  destruct (added_position_current_price
              (fun _ => of_Z 200) (fun _ => of_Z 4) (of_Z 1700000000000)
              initial_positions
              sample_form
              sample_draws 200 eq_refl eq_refl eq_refl eq_refl)
    as (new & c & E & _ & _ & Hc & Hlo & Hhi).
  exists new, c. repeat split; assumption.
Defined.

Lemma remove_after_add_restores_positions_witness :
  Forall (fun p => strict_eq (Position.id p) (of_Z 1700000000000) = false)
    initial_positions /\
  removePosition
    (fst (fst (addPosition (fun _ => of_Z 200) (fun _ => of_Z 4)
                 (of_Z 1700000000000) initial_positions
                 sample_form
                 sample_draws)))
    (of_Z 1700000000000) = initial_positions.
Proof.
  assert (H : Forall (fun p => strict_eq (Position.id p) (of_Z 1700000000000)
                               = false) initial_positions)
    by (repeat constructor).
  split; [exact H|].
  apply (remove_after_add_restores_positions
           (fun _ => of_Z 200) (fun _ => of_Z 4) (of_Z 1700000000000)
           initial_positions sample_form sample_draws eq_refl eq_refl H).
Defined.

(** * Put-call parity *)


(** ** Parity in real arithmetic *)

Module RealPricingFacts.
Import Reals Lra RealPricing.
Local Open Scope R_scope.

Lemma poly_sum_eq (t : R) : poly t = poly_sum t.
Proof. unfold poly, poly_sum, plus_fct, mult_real_fct. ring. Qed.

Lemma poly_sum_derivative (t : R) :
  derivable_pt_lim poly_sum t (poly_slope t).
Proof.
  unfold poly_sum, poly_slope.
  repeat apply derivable_pt_lim_plus;
    apply derivable_pt_lim_scal; apply derivable_pt_lim_pow.
Qed.

Lemma poly_slope_nonneg (t : R) : 0 <= poly_slope t.
Proof.
  unfold poly_slope. simpl.
  pose proof (pow2_ge_0 (t + -0.284496736)).
  pose proof (pow2_ge_0 (t * (t + 2 * -1.453152027 / (5 * 1.061405429)))).
  pose proof (pow2_ge_0 t).
  nra.
Qed.

(** The polynomial of [normalCDF] is increasing. *)
Lemma poly_increasing (s t : R) : s <= t -> poly s <= poly t.
Proof.
  intros Hst. rewrite !poly_sum_eq.
  pose (pr := fun x => exist (derivable_pt_abs poly_sum x) (poly_slope x)
                         (poly_sum_derivative x) : derivable_pt poly_sum x).
  apply (nonneg_derivative_1 poly_sum pr); [|exact Hst].
  intros x. unfold derive_pt, pr. simpl proj1_sig. apply poly_slope_nonneg.
Qed.

Lemma poly_one : poly 1 <= 1.
Proof. unfold poly. lra. Qed.

Lemma sqrt2_pos : 0 < sqrt 2.
Proof. apply sqrt_lt_R0. lra. Qed.

Lemma scaled_abs_nonneg (d : R) : 0 <= Rabs d / sqrt 2.
Proof.
  unfold Rdiv. apply Rmult_le_pos; [apply Rabs_pos|].
  left. apply Rinv_0_lt_compat, sqrt2_pos.
Qed.

Lemma scaled_abs_sqr (d : R) :
  - (Rabs d / sqrt 2) * (Rabs d / sqrt 2) = - (d * d / 2).
Proof.
  pose proof sqrt2_pos as Hs.
  assert (H2 : sqrt 2 * sqrt 2 = 2) by (apply sqrt_sqrt; lra).
  assert (Ha : Rabs d * Rabs d = d * d).
  { unfold Rabs. destruct (Rcase_abs d); ring. }
  replace (- (Rabs d / sqrt 2) * (Rabs d / sqrt 2))
    with (- ((Rabs d * Rabs d) / (sqrt 2 * sqrt 2))) by (field; lra).
  rewrite Ha, H2. reflexivity.
Qed.

(** [tail_weight] is at most 1, and smaller the further [d] is from 0. *)
Lemma tail_weight_le_1 (d : R) : tail_weight d <= 1.
Proof.
  unfold tail_weight. pose proof (scaled_abs_nonneg d) as Hx.
  apply Rle_trans with (poly 1); [|apply poly_one].
  apply poly_increasing.
  unfold Rdiv at 1. rewrite Rmult_1_l. rewrite <- Rinv_1 at 2.
  apply Rinv_le_contravar; nra.
Qed.

Lemma tail_weight_decreasing (d d' : R) :
  Rabs d <= Rabs d' -> tail_weight d' <= tail_weight d.
Proof.
  intros H. unfold tail_weight. apply poly_increasing.
  pose proof (scaled_abs_nonneg d) as Hx.
  pose proof (scaled_abs_nonneg d') as Hx'.
  assert (Hle : Rabs d / sqrt 2 <= Rabs d' / sqrt 2).
  { unfold Rdiv. apply Rmult_le_compat_r; [|exact H].
    left. apply Rinv_0_lt_compat, sqrt2_pos. }
  unfold Rdiv at 1 3. rewrite !Rmult_1_l.
  apply Rinv_le_contravar; nra.
Qed.

(** [normalCDF] on each side of zero. *)
Lemma normalCDF_nonneg_arg (d : R) :
  0 <= d ->
  normalCDF d = 1 - 0.5 * (tail_weight d * exp (- (d * d / 2))).
Proof.
  intros Hd. unfold normalCDF, tail_weight, poly.
  destruct (Rlt_dec d 0) as [H|_]; [lra|].
  rewrite scaled_abs_sqr.
  match goal with |- context [?a * exp ?e] => generalize (a * exp e) end.
  intros X. lra.
Qed.

Lemma normalCDF_neg_arg (d : R) :
  d < 0 ->
  normalCDF d = 0.5 * (tail_weight d * exp (- (d * d / 2))).
Proof.
  intros Hd. unfold normalCDF, tail_weight, poly.
  destruct (Rlt_dec d 0) as [_|H]; [|lra].
  rewrite scaled_abs_sqr.
  match goal with |- context [?a * exp ?e] => generalize (a * exp e) end.
  intros X. lra.
Qed.

Lemma exp_le_mono (x y : R) : x <= y -> exp x <= exp y.
Proof.
  intros [H| ->]; [left; now apply exp_increasing | right; reflexivity].
Qed.

Lemma exp_neg_sqr_le_1 (d : R) : exp (- (d * d / 2)) <= 1.
Proof.
  rewrite <- exp_0. apply exp_le_mono. nra.
Qed.

Section BeforeTheFloors.

Variables S K T r sigma : R.
Hypothesis S_pos : 0 < S.
Hypothesis K_pos : 0 < K.
Hypothesis T_pos : 0 < T.
Hypothesis sigma_pos : 0 < sigma.

Let v : R := sigma * sqrt T.
Let L : R := ln (S / K).
Let d1 : R := (L + (r + 0.5 * sigma * sigma) * T) / v.
Let d2 : R := d1 - v.
Let E : R := exp (- r * T).

Lemma v_pos : 0 < v.
Proof. apply Rmult_lt_0_compat; [exact sigma_pos | now apply sqrt_lt_R0]. Qed.

Lemma v_sqr : v * v = sigma * sigma * T.
Proof.
  unfold v. replace (sigma * sqrt T * (sigma * sqrt T))
    with (sigma * sigma * (sqrt T * sqrt T)) by ring.
  rewrite sqrt_sqrt by lra. reflexivity.
Qed.

Lemma d1_v : d1 * v = L + (r + 0.5 * sigma * sigma) * T.
Proof. pose proof v_pos. unfold d1. field. lra. Qed.

Lemma spot_is_strike_exp : S = K * exp L.
Proof.
  unfold L. rewrite exp_ln; [field; lra|].
  unfold Rdiv. apply Rmult_lt_0_compat; [exact S_pos|].
  now apply Rinv_0_lt_compat.
Qed.

(** The two tails weigh the same: [S exp (- d1^2 / 2)] is
    [K exp (- r T) exp (- d2^2 / 2)]. *)
Lemma tails_balance :
  S * exp (- (d1 * d1 / 2)) = K * E * exp (- (d2 * d2 / 2)).
Proof.
  rewrite spot_is_strike_exp at 1. unfold E.
  rewrite !Rmult_assoc, <- !exp_plus. do 2 f_equal.
  pose proof d1_v as Hd. pose proof v_sqr as Hv. unfold d2. nra.
Qed.

Lemma spot_above_when_d2_nonneg : 0 <= d2 -> K * E <= S.
Proof.
  intros H. rewrite spot_is_strike_exp. unfold E.
  apply Rmult_le_compat_l; [lra|]. apply exp_le_mono.
  pose proof d1_v as Hd. pose proof v_sqr as Hv. pose proof v_pos as Hp.
  unfold d2 in H. nra.
Qed.

Lemma spot_below_when_d1_neg : d1 < 0 -> S <= K * E.
Proof.
  intros H. rewrite spot_is_strike_exp. unfold E.
  apply Rmult_le_compat_l; [lra|]. apply exp_le_mono.
  pose proof d1_v as Hd. pose proof v_sqr as Hv. pose proof v_pos as Hp.
  nra.
Qed.

(** Neither price is negative before it is floored. *)
Lemma unfloored_prices_nonneg :
  0 <= S * normalCDF d1 - K * E * normalCDF d2 /\
  0 <= K * E * (1 - normalCDF d2) - S * (1 - normalCDF d1).
Proof.
  pose proof v_pos as Hv. pose proof tails_balance as Hbal.
  pose proof (exp_pos (- (d1 * d1 / 2))) as He1.
  pose proof (exp_pos (- (d2 * d2 / 2))) as He2.
  pose proof (exp_neg_sqr_le_1 d1) as Hle1.
  pose proof (exp_neg_sqr_le_1 d2) as Hle2.
  pose proof (exp_pos (- r * T)) as HE. fold E in HE.
  pose proof (tail_weight_le_1 d1) as H1.
  pose proof (tail_weight_le_1 d2) as H2.
  assert (HKE : 0 < K * E) by (now apply Rmult_lt_0_compat).
  destruct (Rle_lt_dec 0 d2) as [Hd2|Hd2].
  - (* both arguments are at least zero *)
    assert (Hd1 : 0 <= d1) by (unfold d2 in Hd2; lra).
    rewrite (normalCDF_nonneg_arg d1 Hd1), (normalCDF_nonneg_arg d2 Hd2).
    pose proof (spot_above_when_d2_nonneg Hd2) as Hsk.
    assert (Hw : tail_weight d1 <= tail_weight d2).
    { apply tail_weight_decreasing. rewrite !Rabs_pos_eq by lra.
      unfold d2. lra. }
    revert Hbal He1 He2 Hw.
    generalize (exp (- (d1 * d1 / 2))) (exp (- (d2 * d2 / 2)))
      (tail_weight d1) (tail_weight d2).
    intros e1 e2 w1 w2 Hbal He1 He2 Hw.
    assert (Hp : 0 <= S * e1 * (w2 - w1)) by (apply Rmult_le_pos; nra).
    assert (Hb1 : K * E * (w1 * e1) = K * E * w1 * e1) by ring.
    assert (Hb2 : K * E * (w2 * e2) = S * e1 * w2)
      by (rewrite Hbal; ring).
    split; nra.
  - destruct (Rle_lt_dec 0 d1) as [Hd1|Hd1].
    + (* zero lies between the arguments *)
      rewrite (normalCDF_nonneg_arg d1 Hd1), (normalCDF_neg_arg d2 Hd2).
      revert Hbal He1 He2 Hle1 Hle2 H1 H2.
      generalize (exp (- (d1 * d1 / 2))) (exp (- (d2 * d2 / 2)))
        (tail_weight d1) (tail_weight d2).
      intros e1 e2 w1 w2 Hbal He1 He2 Hle1 Hle2 H1 H2.
      assert (Hp : 0 <= S * e1 * (2 - w1 - w2)) by (apply Rmult_le_pos; nra).
      assert (Hq : 0 <= K * E * e2 * (2 - w1 - w2))
        by (rewrite <- Hbal; exact Hp).
      assert (Hs1 : S * e1 <= S) by nra.
      assert (Hs2 : K * E * e2 <= K * E) by nra.
      assert (Hb1 : K * E * (w2 * e2) = S * e1 * w2)
        by (rewrite Hbal; ring).
      assert (Hb2 : S * (w1 * e1) = K * E * e2 * w1)
        by (rewrite <- Hbal; ring).
      split; nra.
    + (* both arguments are below zero *)
      rewrite (normalCDF_neg_arg d1 Hd1), (normalCDF_neg_arg d2 Hd2).
      pose proof (spot_below_when_d1_neg Hd1) as Hsk.
      assert (Hw : tail_weight d2 <= tail_weight d1).
      { apply tail_weight_decreasing.
        rewrite !Rabs_left by lra. unfold d2. lra. }
      revert Hbal He1 He2 Hw.
      generalize (exp (- (d1 * d1 / 2))) (exp (- (d2 * d2 / 2)))
        (tail_weight d1) (tail_weight d2).
      intros e1 e2 w1 w2 Hbal He1 He2 Hw.
      assert (Hp : 0 <= S * e1 * (w1 - w2)) by (apply Rmult_le_pos; nra).
      assert (Hb2 : K * E * (w2 * e2) = S * e1 * w2)
        by (rewrite Hbal; ring).
      split; nra.
Qed.

End BeforeTheFloors.



End RealPricingFacts.
